(** * Pension projection engine of [pension_app.py]

    A shallow embedding of the financial engine of the Streamlit script
    [pension_app.py]: the early-claim reduction rate, the yearly adjusted
    pension, the quarterly-compounding investment simulation, the merged
    comparison table and the crossover scan.

    Number model.  Python [int]s are [Z].  Python [float]s are read as the
    real numbers they approximate, so [+], [-], [*], [/] and [**] are the
    exact operations of [R]; [round] is Python's round-half-to-even from a
    number to an [int].  The values stored in the data frames are the
    results of [round], hence integers, and a missing cell ([NaN]) is
    [None]. *)

From Stdlib Require Import Reals Lra Lia ZArith List Bool String Floats FinFun.
Import ListNotations.

Set Warnings "-inexact-float".
Open Scope Z_scope.

(** ** Python primitives used by the script *)

Module Py.

(** [range(a, b)]: the integers [a], [a+1], ..., [b-1] (empty when
    [b <= a]). *)
Definition range (a b : Z) : list Z :=
  map (fun i => a + Z.of_nat i) (seq 0 (Z.to_nat (b - a))).

(** [round(x)] with one argument: the nearest integer, ties going to the
    even neighbour. *)
Definition round (x : R) : Z :=
  let f := Zfloor x in
  if Rlt_dec (x - IZR f) (1 / 2) then f
  else if Rlt_dec (1 / 2) (x - IZR f) then f + 1
  else if Z.even f then f else f + 1.

(** [x ** n] for a float [x] and an [int] exponent [n]. *)
Definition pow_int (x : R) (n : Z) : R := powerRZ x n.

(** [x ** y] for a positive float [x] and a float exponent [y]. *)
Definition pow_float (x y : R) : R := Rpower x y.

End Py.

(** ** Function definitions of the script *)

Open Scope R_scope.

(** [calculate_early_pension_reduction_rate]: six percent less per year of
    early claiming. *)
Definition calculate_early_pension_reduction_rate (years_early : Z) : R :=
  1 - (IZR years_early * 0.06).

(** The same expression evaluated in IEEE binary64, the arithmetic the
    interpreter runs it in ([years_early] is a small non-negative [int]). *)
Definition calculate_early_pension_reduction_rate_b64 (years_early : Z) : float :=
  (1 - (PrimFloat.of_uint63 (Uint63.of_Z years_early) * 0.06))%float.

(** [calculate_annual_pension_with_increase_rate]: nothing before the start
    age; afterwards the monthly amount grown by the yearly increase rate,
    times twelve. *)
Definition calculate_annual_pension_with_increase_rate
    (base_monthly_pension : R) (pension_start_age current_age : Z)
    (pension_increase_rate : R) : R :=
  if (current_age <? pension_start_age)%Z then 0
  else
    let years_since_start := (current_age - pension_start_age)%Z in
    let adjusted_monthly_pension :=
      base_monthly_pension
      * Py.pow_int (1 + pension_increase_rate) years_since_start in
    adjusted_monthly_pension * 12.

(** A row of the frame [simulate_investment] returns: columns age and
    assets. *)
Record asset_row : Set := mk_asset_row { row_age : Z; row_assets : Z }.

(** The quarterly rate derived from the annual one (line 37). *)
Definition quarterly_return_rate (annual_return_rate : R) : R :=
  Py.pow_float (1 + annual_return_rate) (1 / 4) - 1.

(** One pass of the body of [for quarter in range(4)]: three months of
    pension are added, then the quarter's return is applied. *)
Definition quarter_body (monthly_pension_amount_received quarterly : R)
    (current_capital : R) : R :=
  (current_capital + monthly_pension_amount_received * 3) * (1 + quarterly).

(** The yearly income the loop computes for [age], by pension type. *)
Definition annual_pension_income_for_current_year
    (early_monthly_pension_at_start base_regular_monthly_pension : R)
    (pension_increase_rate : R) (pension_type : string)
    (regular_pension_start_age early_pension_start_age age : Z) : R :=
  if String.eqb pension_type "early" then
    calculate_annual_pension_with_increase_rate
      early_monthly_pension_at_start early_pension_start_age age
      pension_increase_rate
  else
    calculate_annual_pension_with_increase_rate
      base_regular_monthly_pension regular_pension_start_age age
      pension_increase_rate.

(** The capital after the four quarters of the year of [age]. *)
Definition year_capital
    (early_monthly_pension_at_start base_regular_monthly_pension : R)
    (annual_return_rate pension_increase_rate : R) (pension_type : string)
    (regular_pension_start_age early_pension_start_age : Z)
    (current_capital : R) (age : Z) : R :=
  let income :=
    annual_pension_income_for_current_year
      early_monthly_pension_at_start base_regular_monthly_pension
      pension_increase_rate pension_type
      regular_pension_start_age early_pension_start_age age in
  let monthly_pension_amount_received := income / 12 in
  Nat.iter 4
    (quarter_body monthly_pension_amount_received
       (quarterly_return_rate annual_return_rate))
    current_capital.

(** The state of the outer loop: the running capital and the rows appended
    so far. *)
Definition sim_state : Type := (R * list asset_row)%type.

(** The body of [for age in range(...)]: the year's capital, then the
    appended row with the rounded capital. *)
Definition age_body
    (early_monthly_pension_at_start base_regular_monthly_pension : R)
    (annual_return_rate pension_increase_rate : R) (pension_type : string)
    (regular_pension_start_age early_pension_start_age : Z)
    (st : sim_state) (age : Z) : sim_state :=
  let current_capital :=
    year_capital early_monthly_pension_at_start base_regular_monthly_pension
      annual_return_rate pension_increase_rate pension_type
      regular_pension_start_age early_pension_start_age (fst st) age in
  (current_capital, snd st ++ [mk_asset_row age (Py.round current_capital)]).

(** The outer loop of [simulate_investment], with the final capital kept
    next to the rows. *)
Definition simulate_loop
    (initial_capital early_monthly_pension_at_start
       base_regular_monthly_pension annual_return_rate : R)
    (investment_start_age investment_end_age : Z)
    (pension_increase_rate : R) (pension_type : string)
    (regular_pension_start_age early_pension_start_age : Z) : sim_state :=
  fold_left
    (age_body early_monthly_pension_at_start base_regular_monthly_pension
       annual_return_rate pension_increase_rate pension_type
       regular_pension_start_age early_pension_start_age)
    (Py.range investment_start_age (investment_end_age + 1))
    (initial_capital, []).

(** [simulate_investment]: the rows of the returned frame. *)
Definition simulate_investment
    (initial_capital early_monthly_pension_at_start
       base_regular_monthly_pension annual_return_rate : R)
    (investment_start_age investment_end_age : Z)
    (pension_increase_rate : R) (pension_type : string)
    (regular_pension_start_age early_pension_start_age : Z) : list asset_row :=
  snd (simulate_loop initial_capital early_monthly_pension_at_start
         base_regular_monthly_pension annual_return_rate
         investment_start_age investment_end_age pension_increase_rate
         pension_type regular_pension_start_age early_pension_start_age).

(** ** The merged comparison table (lines 182-193) *)

Open Scope Z_scope.

(** [pd.merge(left, right, on=age, how='left')] where [right] is a frame
    returned by [simulate_investment]: every left row is kept, once per
    right row of the same age, and once with a missing cell when there is
    none.  A frame built from no rows has no age column and the merge
    raises [KeyError]: [None]. *)
Definition merge_left {A : Type} (key : A -> Z) (left : list A)
    (right : list asset_row) : option (list (A * option Z)) :=
  match right with
  | [] => None
  | _ :: _ =>
      Some (flat_map
              (fun l =>
                 match filter (fun r => row_age r =? key l) right with
                 | [] => [(l, None)]
                 | matches => map (fun r => (l, Some (row_assets r))) matches
                 end)
              left)
  end.

(** [fillna(0)] on one cell. *)
Definition fillna0 (cell : option Z) : Z :=
  match cell with Some v => v | None => 0 end.

(** A row of [merged_df]: age, assets when claiming early, assets when
    claiming at the regular age (after [fillna(0)]) and their difference.
    [None] is [NaN]. *)
Record merged_row : Set := mk_merged_row {
  m_age : Z;
  m_early : option Z;
  m_regular : Z;
  m_delta : option Z
}.

(** Line 193 on one row: early minus regular, [NaN] staying [NaN]. *)
Definition with_delta (r : Z * option Z * option Z) : merged_row :=
  let '(age, early, regular) := r in
  let regular0 := fillna0 regular in
  mk_merged_row age early regular0
    (match early with Some e => Some (e - regular0) | None => None end).

(** Lines 182-193 as a function of the two simulated frames. *)
Definition build_merged_df (early_pension_start_age investment_end_age : Z)
    (early_pension_df regular_pension_df : list asset_row)
    : option (list merged_row) :=
  let ages := Py.range early_pension_start_age (investment_end_age + 1) in
  match merge_left (fun a => a) ages early_pension_df with
  | None => None
  | Some with_early =>
      match merge_left fst with_early regular_pension_df with
      | None => None
      | Some with_both => Some (map with_delta with_both)
      end
  end.

(** ** The crossover scan (lines 226-235) *)

(** Comparisons of a cell with zero; every comparison with [NaN] is
    false. *)
Definition cell_gt0 (c : option Z) : bool :=
  match c with Some v => 0 <? v | None => false end.
Definition cell_lt0 (c : option Z) : bool :=
  match c with Some v => v <? 0 | None => false end.
Definition cell_le0 (c : option Z) : bool :=
  match c with Some v => v <=? 0 | None => false end.
Definition cell_ge0 (c : option Z) : bool :=
  match c with Some v => 0 <=? v | None => false end.

(** [.iloc[i]] of the scan; the scan only uses positions inside the
    frame, the default row is never read. *)
Definition iloc (merged : list merged_row) (i : nat) : merged_row :=
  nth i merged (mk_merged_row 0 None 0 None).

(** The two tests of the loop body at position [i]. *)
Definition falls_at (merged : list merged_row) (i : nat) : bool :=
  cell_gt0 (m_delta (iloc merged (i - 1))) && cell_le0 (m_delta (iloc merged i)).
Definition rises_at (merged : list merged_row) (i : nat) : bool :=
  cell_lt0 (m_delta (iloc merged (i - 1))) && cell_ge0 (m_delta (iloc merged i)).

(** The loop over the positions still to visit; leaving the loop by
    [break] is returning. *)
Fixpoint crossover_scan (merged : list merged_row) (positions : list nat)
    : option Z :=
  match positions with
  | [] => None
  | i :: rest =>
      if falls_at merged i then Some (m_age (iloc merged i))
      else if rises_at merged i then Some (m_age (iloc merged i))
      else crossover_scan merged rest
  end.

(** [crossover_age] after the loop over [range(1, len(merged_df))]. *)
Definition crossover_age (merged : list merged_row) : option Z :=
  crossover_scan merged (seq 1 (List.length merged - 1)).

(** ** The calculation part of the script (lines 134-235) *)

Section Script.

(** The fixed regular start age (65 in the script) and the five values
    read from the widgets. *)
Variable regular_pension_start_age : Z.
Variable base_regular_monthly_pension : Z.
Variable early_pension_years : Z.
Variable investment_end_age : Z.
Variables annual_return_rate pension_increase_rate : R.

Definition early_pension_start_age : Z :=
  regular_pension_start_age - early_pension_years.

Definition early_pension_reduction_rate : R :=
  calculate_early_pension_reduction_rate early_pension_years.

Definition early_monthly_pension_at_start : R :=
  (IZR base_regular_monthly_pension * early_pension_reduction_rate)%R.

Definition early_pension_df : list asset_row :=
  simulate_investment 0 early_monthly_pension_at_start
    (IZR base_regular_monthly_pension) annual_return_rate
    early_pension_start_age investment_end_age pension_increase_rate
    "early" regular_pension_start_age early_pension_start_age.

Definition regular_pension_df : list asset_row :=
  simulate_investment 0 early_monthly_pension_at_start
    (IZR base_regular_monthly_pension) annual_return_rate
    regular_pension_start_age investment_end_age pension_increase_rate
    "regular" regular_pension_start_age early_pension_start_age.

Definition merged_df : option (list merged_row) :=
  build_merged_df early_pension_start_age investment_end_age
    early_pension_df regular_pension_df.

(** The crossover age the script ends with; [None] also when the merge
    raised. *)
Definition script_crossover_age : option Z :=
  match merged_df with
  | Some merged => crossover_age merged
  | None => None
  end.

End Script.

(** The regular start age as the script fixes it (line 78). *)
Definition regular_pension_start_age_fixed : Z := 65.

(** ** Reading a frame, and the capital without the recording *)

(** The assets a frame records for [age], when it has a row for it. *)
Definition assets_at (df : list asset_row) (age : Z) : option Z :=
  option_map row_assets (find (fun r => row_age r =? age) df).

(** Following the spec (4.2, steps 1 to 3, no snapshot): the capital
    compounded year after year over [ages] in full precision, nothing being
    recorded. *)
Definition compound_capital
    (early_monthly_pension_at_start base_regular_monthly_pension : R)
    (annual_return_rate pension_increase_rate : R) (pension_type : string)
    (regular_pension_start_age early_pension_start_age : Z)
    (initial_capital : R) (ages : list Z) : R :=
  fold_left
    (year_capital early_monthly_pension_at_start base_regular_monthly_pension
       annual_return_rate pension_increase_rate pension_type
       regular_pension_start_age early_pension_start_age)
    ages initial_capital.

(** Following the spec (4.3): the delta changes sign between positions
    [i-1] and [i]. *)
Definition sign_change (merged : list merged_row) (i : nat) : Prop :=
  exists before here : Z,
    m_delta (iloc merged (i - 1)) = Some before /\
    m_delta (iloc merged i) = Some here /\
    ((before > 0 /\ here <= 0) \/ (before < 0 /\ here >= 0)).

(** A synthetic frame with the given ages and deltas (the regular column
    is zero, the early column is the delta). *)
Definition frame_of_deltas (ages deltas : list Z) : list merged_row :=
  map (fun ad => with_delta (fst ad, Some (snd ad), Some 0))
      (combine ages deltas).

(** The amount and the start age the loop body uses for a pension type:
    the two branches of the [if] on [pension_type]. *)
Definition pension_source (pension_type : string)
    (early_monthly_pension_at_start base_regular_monthly_pension : R)
    (early_pension_start_age regular_pension_start_age : Z) : R * Z :=
  if String.eqb pension_type "early"
  then (early_monthly_pension_at_start, early_pension_start_age)
  else (base_regular_monthly_pension, regular_pension_start_age).

(** The row the loop appends for [age] when it started from capital
    [c0] at age [s], in terms of the capital compounded without
    recording. *)
Definition snapshot
    (early_monthly_pension_at_start base_regular_monthly_pension : R)
    (annual_return_rate pension_increase_rate : R) (pension_type : string)
    (regular_pension_start_age early_pension_start_age : Z)
    (c0 : R) (s age : Z) : asset_row :=
  mk_asset_row age
    (Py.round
       (compound_capital early_monthly_pension_at_start
          base_regular_monthly_pension annual_return_rate
          pension_increase_rate pension_type regular_pension_start_age
          early_pension_start_age c0 (Py.range s (age + 1)))).

(** The loop body reports position [i] when one of its two tests holds. *)
Definition crossing_test (merged : list merged_row) (i : nat) : bool :=
  falls_at merged i || rises_at merged i.

(** ** Presentation code that reads the engine's results *)

(** [highlight_crossover] (lines 196-200): one style per column of the
    row, red when the delta is zero or negative.  A row of [merged_df] has
    four columns. *)
Definition highlight_crossover (row : merged_row) : list string :=
  if cell_le0 (m_delta row) then repeat "color: red"%string 4
  else repeat ""%string 4.

(** The test [if crossover_age:] (line 237): [None] and the age 0 are
    both false. *)
Definition crossover_announced (crossover : option Z) : bool :=
  match crossover with
  | Some age => negb (age =? 0)
  | None => false
  end.

(** [merged_df[merged_df[age] == selected].iloc[0]] (line 259): the first
    row of the selected age; [None] is the [IndexError] of an empty
    selection. *)
Definition selected_data_row (merged : list merged_row) (selected : Z)
    : option merged_row :=
  hd_error (filter (fun r => m_age r =? selected) merged).

(** The early monthly amount the detail text shows for the selected age
    (line 272). *)
Definition current_early_monthly_pension_at_selected_age
    (early_monthly_pension_at_start pension_increase_rate : R)
    (selected_age_from_table early_pension_start_age : Z) : R :=
  if (early_pension_start_age <=? selected_age_from_table)%Z then
    (early_monthly_pension_at_start
     * Py.pow_int (1 + pension_increase_rate)
         (selected_age_from_table - early_pension_start_age))%R
  else 0%R.

(** The regular monthly amount the detail text shows (line 292); it is
    computed only in the branch where the selected age has reached the
    regular start age. *)
Definition current_adjusted_monthly_pension_regular
    (base_regular_monthly_pension pension_increase_rate : R)
    (selected_age_from_table regular_pension_start_age : Z) : option R :=
  if (selected_age_from_table <? regular_pension_start_age)%Z then None
  else
    Some (base_regular_monthly_pension
          * Py.pow_int (1 + pension_increase_rate)
              (selected_age_from_table - regular_pension_start_age))%R.

(** The quarterly rate in percent shown by the detail text (line 270). *)
Definition current_quarterly_return_rate_display (annual_return_rate : R) : R :=
  ((Py.pow_float (1 + annual_return_rate) (1 / 4) - 1) * 100)%R.

(** The delta at position [i] of a frame. *)
Definition delta_at (merged : list merged_row) (i : nat) : option Z :=
  m_delta (iloc merged i).

(** * Properties *)

(** ** [range] *)

Module PyFacts.

Lemma range_cons (a b : Z) :
  a < b -> Py.range a b = a :: Py.range (a + 1) b.
Proof.
  intros Hab. unfold Py.range.
  replace (Z.to_nat (b - a)) with (S (Z.to_nat (b - (a + 1)))) by lia.
  cbn [seq map]. f_equal; [lia|].
  rewrite <- seq_shift, map_map.
  apply map_ext. intros i. lia.
Qed.

Lemma range_nil (a b : Z) : b <= a -> Py.range a b = [].
Proof.
  intros Hab. unfold Py.range.
  replace (Z.to_nat (b - a)) with 0%nat by lia. reflexivity.
Qed.

Lemma range_snoc (a b : Z) :
  a <= b -> Py.range a (b + 1) = Py.range a b ++ [b].
Proof.
  intros Hab. unfold Py.range.
  replace (Z.to_nat (b + 1 - a)) with (Z.to_nat (b - a) + 1)%nat by lia.
  rewrite seq_app, map_app. cbn [seq map Nat.add]. do 2 f_equal. lia.
Qed.

Lemma range_snoc_last (a b : Z) :
  a < b -> Py.range a b = Py.range a (b - 1) ++ [b - 1].
Proof.
  intros Hab. rewrite <- range_snoc by lia. f_equal. lia.
Qed.

Lemma in_range (a b x : Z) : In x (Py.range a b) <-> a <= x < b.
Proof.
  unfold Py.range. rewrite in_map_iff. split.
  - intros [i [<- Hi]]. apply in_seq in Hi. lia.
  - intros Hx. exists (Z.to_nat (x - a)). split; [lia|].
    apply in_seq. lia.
Qed.

Lemma range_NoDup (a b : Z) : NoDup (Py.range a b).
Proof.
  unfold Py.range. apply Injective_map_NoDup.
  - intros i j Hij. lia.
  - apply seq_NoDup.
Qed.

Lemma range_split (a m b : Z) :
  a <= m <= b -> Py.range a b = Py.range a m ++ Py.range m b.
Proof.
  intros Hm.
  remember (Z.to_nat (m - a)) as n eqn:Hn.
  revert a Hm Hn. induction n as [|n IH]; intros a Hm Hn.
  - replace m with a by lia. now rewrite (range_nil a a) by lia.
  - rewrite (range_cons a b), (range_cons a m) by lia.
    cbn [app]. f_equal. apply IH; lia.
Qed.

(** ** [round] *)

Lemma round_floor_bounds (x : R) :
  Zfloor x <= Py.round x <= Zfloor x + 1.
Proof.
  unfold Py.round.
  destruct (Rlt_dec _ _); [lia|].
  destruct (Rlt_dec _ _); [lia|].
  destruct (Z.even _); lia.
Qed.

Lemma round_near (x : R) (z : Z) :
  (IZR z - 1 / 2 < x < IZR z + 1 / 2)%R -> Py.round x = z.
Proof.
  intros Hx. unfold Py.round.
  pose proof (Zfloor_bound x) as Hf.
  destruct (Rlt_dec (x - IZR (Zfloor x)) (1 / 2)) as [Hlt|Hge].
  - apply Zfloor_eq. split; [|lra].
    destruct (Z_le_gt_dec z (Zfloor x)) as [Hle|Hgt].
    + apply IZR_le in Hle. lra.
    + assert (Zfloor x + 1 <= z) as H1 by lia.
      apply IZR_le in H1. rewrite plus_IZR in H1. lra.
  - assert (Zfloor x + 1 = z) as Hz.
    { assert (Zfloor x < z) as H1.
      { apply lt_IZR. lra. }
      assert (z < Zfloor x + 2) as H2.
      { apply lt_IZR. rewrite plus_IZR. lra. }
      lia. }
    destruct (Rlt_dec (1 / 2) (x - IZR (Zfloor x))) as [Hgt|Hle]; [exact Hz|].
    exfalso. rewrite <- Hz, plus_IZR in Hx. lra.
Qed.

Lemma round_IZR (z : Z) : Py.round (IZR z) = z.
Proof. apply round_near. lra. Qed.

Lemma round_le (x y : R) : (x <= y)%R -> Py.round x <= Py.round y.
Proof.
  intros Hxy.
  pose proof (Zfloor_le x y Hxy) as Hf.
  destruct (Z.eq_dec (Zfloor x) (Zfloor y)) as [Heq|Hne].
  - unfold Py.round. rewrite <- Heq.
    destruct (Rlt_dec (x - IZR (Zfloor x)) (1 / 2)) as [Hx1|Hx1];
      destruct (Rlt_dec (y - IZR (Zfloor x)) (1 / 2)) as [Hy1|Hy1];
      destruct (Rlt_dec (1 / 2) (x - IZR (Zfloor x))) as [Hx2|Hx2];
      destruct (Rlt_dec (1 / 2) (y - IZR (Zfloor x))) as [Hy2|Hy2];
      destruct (Z.even (Zfloor x)); try lia; exfalso; lra.
  - pose proof (round_floor_bounds x). pose proof (round_floor_bounds y). lia.
Qed.

End PyFacts.

(** ** The pension adjuster *)

Section Adjuster.

Open Scope R_scope.

Lemma pow_int_nonneg (x : R) (n : Z) :
  (0 <= n)%Z -> Py.pow_int x n = x ^ Z.to_nat n.
Proof.
  intros Hn. unfold Py.pow_int.
  rewrite pow_powerRZ, Z2Nat.id by assumption. reflexivity.
Qed.

Lemma annual_pension_from_start (amt : R) (s a : Z) (r : R) :
  (s <= a)%Z ->
  calculate_annual_pension_with_increase_rate amt s a r
  = amt * (1 + r) ^ Z.to_nat (a - s) * 12.
Proof.
  intros Hsa. unfold calculate_annual_pension_with_increase_rate.
  destruct (Z.ltb_spec a s) as [Hlt|_]; [lia|].
  cbv zeta. rewrite pow_int_nonneg by lia. reflexivity.
Qed.

Lemma annual_pension_before_start (amt : R) (s a : Z) (r : R) :
  (a < s)%Z -> calculate_annual_pension_with_increase_rate amt s a r = 0.
Proof.
  intros Has. unfold calculate_annual_pension_with_increase_rate.
  destruct (Z.ltb_spec a s) as [_|Hge]; [reflexivity|lia].
Qed.

Lemma quarterly_growth_pos (r : R) : 0 < 1 + quarterly_return_rate r.
Proof.
  unfold quarterly_return_rate, Py.pow_float, Rpower.
  pose proof (exp_pos (1 / 4 * ln (1 + r))). lra.
Qed.

Lemma quarterly_growth_pow4 (r : R) :
  0 < 1 + r -> (1 + quarterly_return_rate r) ^ 4 = 1 + r.
Proof.
  intros Hr. unfold quarterly_return_rate, Py.pow_float.
  replace (1 + (Rpower (1 + r) (1 / 4) - 1)) with (Rpower (1 + r) (1 / 4))
    by ring.
  rewrite <- Rpower_pow by apply exp_pos.
  rewrite Rpower_mult.
  replace (1 / 4 * INR 4) with 1 by (simpl; field).
  now apply Rpower_1.
Qed.

Lemma quarterly_rate_nonneg (r : R) : 0 <= r -> 0 <= quarterly_return_rate r.
Proof.
  intros Hr.
  pose proof (quarterly_growth_pow4 r ltac:(lra)) as H4.
  pose proof (quarterly_growth_pos r) as Hpos.
  destruct (Rle_lt_dec 0 (quarterly_return_rate r)) as [Hok|Hneg]; [exact Hok|].
  exfalso.
  assert ((1 + quarterly_return_rate r) ^ 4 < 1) as Hlt.
  { set (g := 1 + quarterly_return_rate r) in *.
    assert (g < 1) as Hg by (unfold g; lra).
    assert (0 < g * g < 1) as H2 by nra.
    replace (g ^ 4) with ((g * g) * (g * g)) by ring. nra. }
  lra.
Qed.

Lemma quarterly_rate_zero : quarterly_return_rate 0 = 0.
Proof.
  unfold quarterly_return_rate, Py.pow_float, Rpower.
  rewrite Rplus_0_r, ln_1, Rmult_0_r, exp_0. ring.
Qed.

End Adjuster.

(** C4.  For every number of early years from 0 to 5 the reduction rate is
    one minus 0.06 per year; it is exactly 1 for no early year and 0.7 for
    five, over the reals and also when the expression is evaluated in
    binary64 floating point. *)
Theorem reduction_rate_six_percent_per_year (years_early : Z) :
  0 <= years_early <= 5 ->
  calculate_early_pension_reduction_rate years_early
    = (1 - 0.06 * IZR years_early)%R
  /\ calculate_early_pension_reduction_rate 0 = 1%R
  /\ calculate_early_pension_reduction_rate 5 = 0.7%R
  /\ calculate_early_pension_reduction_rate_b64 0 = 1%float
  /\ calculate_early_pension_reduction_rate_b64 5 = 0.7%float.
Proof.
  intros _. unfold calculate_early_pension_reduction_rate.
  repeat split; try lra; vm_compute; reflexivity.
Qed.

Lemma reduction_rate_six_percent_per_year_witness :
  0 <= 3 <= 5
  /\ calculate_early_pension_reduction_rate 3 = (1 - 0.06 * IZR 3)%R.
Proof.
  split; [lia|].
  apply (reduction_rate_six_percent_per_year 3). lia.
Defined.

(** C9.  Before the start age the adjusted pension is zero, whatever the
    amount and the increase rate. *)
Theorem no_pension_before_start_age (amt : R) (s a : Z) (r : R) :
  a < s -> calculate_annual_pension_with_increase_rate amt s a r = 0%R.
Proof. apply annual_pension_before_start. Qed.

Lemma no_pension_before_start_age_witness :
  60 < 65
  /\ calculate_annual_pension_with_increase_rate 1000000 65 60 0.034 = 0%R.
Proof.
  split; [lia|].
  apply (no_pension_before_start_age 1000000 65 60 0.034). lia.
Defined.

(** C1, as the claim states it, fails: at the start age the function
    returns twelve times the monthly amount, not the amount. *)
Lemma adjusted_pension_not_monthly :
  calculate_annual_pension_with_increase_rate 1000000 65 65 0.034
  <> (1000000 * (1 + 0.034) ^ Z.to_nat (65 - 65))%R.
Proof.
  rewrite annual_pension_from_start by lia.
  simpl. lra.
Qed.

(** C1, amended.  From the start age on the function returns the yearly
    amount, twelve times [amt * (1 + r)^(a - s)]; at the start age this is
    [12 * amt]. *)
Theorem adjusted_pension_is_yearly (amt : R) (s a : Z) (r : R) :
  s <= a ->
  (calculate_annual_pension_with_increase_rate amt s a r
   = 12 * (amt * (1 + r) ^ Z.to_nat (a - s))
   /\ calculate_annual_pension_with_increase_rate amt s s r = 12 * amt)%R.
Proof.
  intros Hsa.
  rewrite !annual_pension_from_start by lia.
  rewrite Z.sub_diag. simpl (Z.to_nat 0). rewrite pow_O.
  split; ring.
Qed.

Lemma adjusted_pension_is_yearly_witness :
  65 <= 67
  /\ (calculate_annual_pension_with_increase_rate 1000000 65 67 0.5
      = 12 * (1000000 * (1 + 0.5) ^ Z.to_nat (67 - 65)))%R.
Proof.
  split; [lia|].
  apply (adjusted_pension_is_yearly 1000000 65 67 0.5). lia.
Defined.

(** C8.  For a non-negative annual rate the quarterly rate compounds back
    to the annual one over four quarters; over the reals the identity is
    exact. *)
Theorem quarterly_rate_compounds_to_annual (annual_return_rate : R) :
  (0 <= annual_return_rate ->
   quarterly_return_rate annual_return_rate
     = Py.pow_float (1 + annual_return_rate) (1 / 4) - 1
   /\ (1 + quarterly_return_rate annual_return_rate) ^ 4
      = 1 + annual_return_rate)%R.
Proof.
  intros Hr. split; [reflexivity|].
  apply quarterly_growth_pow4. lra.
Qed.

Lemma quarterly_rate_compounds_to_annual_witness :
  (0 <= 0.05 /\ (1 + quarterly_return_rate 0.05) ^ 4 = 1 + 0.05)%R.
Proof.
  split; [lra|].
  apply (quarterly_rate_compounds_to_annual 0.05). lra.
Defined.

(** ** The simulation *)

Section Simulation.

Variables early_amt base_amt : R.
Variables annual_return_rate pension_increase_rate : R.
Variable pension_type : string.
Variables regular_start early_start : Z.

Let income : Z -> R :=
  annual_pension_income_for_current_year early_amt base_amt
    pension_increase_rate pension_type regular_start early_start.
Let year : R -> Z -> R :=
  year_capital early_amt base_amt annual_return_rate pension_increase_rate
    pension_type regular_start early_start.
Let capital : R -> list Z -> R :=
  compound_capital early_amt base_amt annual_return_rate
    pension_increase_rate pension_type regular_start early_start.
Let body : sim_state -> Z -> sim_state :=
  age_body early_amt base_amt annual_return_rate pension_increase_rate
    pension_type regular_start early_start.
Let snap : R -> Z -> Z -> asset_row :=
  snapshot early_amt base_amt annual_return_rate pension_increase_rate
    pension_type regular_start early_start.

Lemma capital_snoc (c0 : R) (ages : list Z) (age : Z) :
  capital c0 (ages ++ [age]) = year (capital c0 ages) age.
Proof.
  unfold capital, compound_capital. now rewrite fold_left_app.
Qed.

Lemma capital_app (c0 : R) (ages1 ages2 : list Z) :
  capital c0 (ages1 ++ ages2) = capital (capital c0 ages1) ages2.
Proof.
  unfold capital, compound_capital. now rewrite fold_left_app.
Qed.

(** The loop keeps the full-precision capital next to the snapshots. *)
Lemma loop_state_upto (c0 : R) (s b : Z) :
  fold_left body (Py.range s b) (c0, [])
  = (capital c0 (Py.range s b), map (snap c0 s) (Py.range s b)).
Proof.
  remember (Z.to_nat (b - s)) as n eqn:Hn.
  revert b Hn. induction n as [|n IH]; intros b Hn.
  - rewrite PyFacts.range_nil by lia. reflexivity.
  - rewrite (PyFacts.range_snoc_last s b) by lia.
    rewrite fold_left_app, map_app, capital_snoc, IH by lia.
    cbn [fold_left map]. unfold body at 1, age_body. cbn [fst snd].
    f_equal. f_equal. unfold snap, snapshot.
    rewrite PyFacts.range_snoc, capital_snoc by lia.
    reflexivity.
Qed.

Lemma simulate_loop_eq (c0 : R) (s e : Z) :
  simulate_loop c0 early_amt base_amt annual_return_rate s e
    pension_increase_rate pension_type regular_start early_start
  = (capital c0 (Py.range s (e + 1)),
     map (snap c0 s) (Py.range s (e + 1))).
Proof. apply loop_state_upto. Qed.

Lemma simulate_investment_eq (c0 : R) (s e : Z) :
  simulate_investment c0 early_amt base_amt annual_return_rate s e
    pension_increase_rate pension_type regular_start early_start
  = map (snap c0 s) (Py.range s (e + 1)).
Proof.
  unfold simulate_investment. now rewrite simulate_loop_eq.
Qed.

Lemma simulate_investment_ages (c0 : R) (s e : Z) :
  map row_age
    (simulate_investment c0 early_amt base_amt annual_return_rate s e
       pension_increase_rate pension_type regular_start early_start)
  = Py.range s (e + 1).
Proof.
  rewrite simulate_investment_eq, map_map. unfold snap, snapshot.
  cbn [row_age].
  apply map_id.
Qed.

(** *** Growth of the capital *)

Open Scope R_scope.

Lemma quarter_body_ge (m q c : R) :
  0 <= m -> 0 <= q -> 0 <= c -> c <= quarter_body m q c.
Proof. intros Hm Hq Hc. unfold quarter_body. nra. Qed.

Lemma quarters_ge (m q : R) (n : nat) (c : R) :
  0 <= m -> 0 <= q -> 0 <= c -> c <= Nat.iter n (quarter_body m q) c.
Proof.
  intros Hm Hq Hc. induction n as [|n IH].
  - cbn [Nat.iter nat_rect]. lra.
  - change (Nat.iter (S n) (quarter_body m q) c)
      with (quarter_body m q (Nat.iter n (quarter_body m q) c)).
    apply Rle_trans with (1 := IH).
    apply quarter_body_ge; lra.
Qed.

Lemma year_ge (c : R) (age : Z) :
  0 <= annual_return_rate -> 0 <= income age -> 0 <= c -> c <= year c age.
Proof.
  intros Hr Hi Hc. unfold year, year_capital. cbv zeta.
  apply quarters_ge; [|now apply quarterly_rate_nonneg|exact Hc].
  fold (income age). lra.
Qed.

Lemma capital_ge (ages : list Z) (c : R) :
  0 <= annual_return_rate ->
  (forall age, In age ages -> 0 <= income age) ->
  0 <= c -> c <= capital c ages.
Proof.
  intros Hr. revert c. induction ages as [|age rest IH]; intros c Hi Hc.
  - unfold capital, compound_capital. cbn [fold_left]. lra.
  - assert (c <= year c age) as Hy.
    { apply year_ge; [exact Hr| |exact Hc]. apply Hi. now left. }
    apply Rle_trans with (1 := Hy).
    change (capital c (age :: rest)) with (capital (year c age) rest).
    apply IH; [|lra]. intros x Hx. apply Hi. now right.
Qed.

Lemma capital_mono (c0 : R) (s a b : Z) :
  0 <= annual_return_rate -> 0 <= c0 ->
  (forall age, (s <= age <= b)%Z -> 0 <= income age) ->
  (s <= a <= b)%Z ->
  capital c0 (Py.range s (a + 1)) <= capital c0 (Py.range s (b + 1)).
Proof.
  intros Hr Hc Hi Hab.
  rewrite (PyFacts.range_split s (a + 1) (b + 1)) by lia.
  rewrite capital_app.
  apply capital_ge; [exact Hr| |].
  - intros age Hage. apply PyFacts.in_range in Hage. apply Hi. lia.
  - apply Rle_trans with (1 := Hc).
    apply capital_ge; [exact Hr| |exact Hc].
    intros age Hage. apply PyFacts.in_range in Hage. apply Hi. lia.
Qed.

(** *** No return and no increase *)

Lemma income_of_source (amt : R) (ps age : Z) :
  pension_source pension_type early_amt base_amt early_start regular_start
  = (amt, ps) ->
  income age
  = calculate_annual_pension_with_increase_rate amt ps age
      pension_increase_rate.
Proof.
  unfold income, annual_pension_income_for_current_year, pension_source.
  destruct (String.eqb pension_type "early"); intros [= <- <-]; reflexivity.
Qed.

Lemma year_zero_rates (amt : R) (ps : Z) (c : R) (age : Z) :
  annual_return_rate = 0 -> pension_increase_rate = 0 ->
  pension_source pension_type early_amt base_amt early_start regular_start
  = (amt, ps) ->
  (ps <= age)%Z ->
  year c age = c + 12 * amt.
Proof.
  intros Hr Hi Hsrc Hage. unfold year, year_capital. cbv zeta.
  fold (income age). rewrite (income_of_source amt ps age Hsrc).
  rewrite annual_pension_from_start by exact Hage.
  rewrite Hr, Hi, quarterly_rate_zero, Rplus_0_r, pow1.
  cbn [Nat.iter nat_rect]. unfold quarter_body. field.
Qed.

Lemma capital_zero_rates (amt : R) (s b : Z) :
  annual_return_rate = 0 -> pension_increase_rate = 0 ->
  pension_source pension_type early_amt base_amt early_start regular_start
  = (amt, s) ->
  (s <= b)%Z ->
  capital 0 (Py.range s b) = amt * 12 * IZR (b - s).
Proof.
  intros Hr Hi Hsrc Hsb.
  remember (Z.to_nat (b - s)) as n eqn:Hn.
  revert b Hsb Hn. induction n as [|n IH]; intros b Hsb Hn.
  - replace b with s by lia. rewrite PyFacts.range_nil, Z.sub_diag by lia.
    unfold capital, compound_capital. cbn [fold_left]. ring.
  - rewrite PyFacts.range_snoc_last, capital_snoc by lia.
    rewrite (year_zero_rates amt s) by (assumption || lia).
    rewrite IH by lia.
    replace (b - s)%Z with (b - 1 - s + 1)%Z by lia.
    rewrite plus_IZR. ring.
Qed.

End Simulation.

(** *** Reading the simulated frame *)

Lemma assets_at_keyed (g : Z -> Z) (ages : list Z) (age : Z) :
  assets_at (map (fun a => mk_asset_row a (g a)) ages) age
  = if in_dec Z.eq_dec age ages then Some (g age) else None.
Proof.
  unfold assets_at. induction ages as [|a rest IH]; [reflexivity|].
  cbn [map find row_age]. destruct (Z.eqb_spec a age) as [->|Hne].
  - cbn [option_map row_assets].
    destruct (in_dec Z.eq_dec age (age :: rest)) as [_|Hn]; [reflexivity|].
    exfalso. apply Hn. now left.
  - rewrite IH.
    destruct (in_dec Z.eq_dec age rest) as [Hin|Hnin];
      destruct (in_dec Z.eq_dec age (a :: rest)) as [Hin'|Hnin'];
      try reflexivity.
    + exfalso. apply Hnin'. now right.
    + exfalso. destruct Hin' as [Heq|Hin']; [now apply Hne|now apply Hnin].
Qed.

Lemma assets_at_simulated
    (c0 early_amt base_amt annual_return_rate : R) (s e : Z)
    (pension_increase_rate : R) (pension_type : string)
    (regular_start early_start age : Z) :
  s <= age <= e ->
  assets_at
    (simulate_investment c0 early_amt base_amt annual_return_rate s e
       pension_increase_rate pension_type regular_start early_start) age
  = Some (Py.round
            (compound_capital early_amt base_amt annual_return_rate
               pension_increase_rate pension_type regular_start early_start
               c0 (Py.range s (age + 1)))).
Proof.
  intros Hage. rewrite simulate_investment_eq. unfold snapshot.
  rewrite (assets_at_keyed
             (fun a => Py.round
                (compound_capital early_amt base_amt annual_return_rate
                   pension_increase_rate pension_type regular_start
                   early_start c0 (Py.range s (a + 1))))).
  destruct (in_dec Z.eq_dec age (Py.range s (e + 1))) as [_|Hn];
    [reflexivity|].
  exfalso. apply Hn. apply PyFacts.in_range. lia.
Qed.

Lemma assets_at_not_simulated
    (c0 early_amt base_amt annual_return_rate : R) (s e : Z)
    (pension_increase_rate : R) (pension_type : string)
    (regular_start early_start age : Z) :
  ~ s <= age <= e ->
  assets_at
    (simulate_investment c0 early_amt base_amt annual_return_rate s e
       pension_increase_rate pension_type regular_start early_start) age
  = None.
Proof.
  intros Hage. rewrite simulate_investment_eq. unfold snapshot.
  rewrite (assets_at_keyed
             (fun a => Py.round
                (compound_capital early_amt base_amt annual_return_rate
                   pension_increase_rate pension_type regular_start
                   early_start c0 (Py.range s (a + 1))))).
  destruct (in_dec Z.eq_dec age (Py.range s (e + 1))) as [Hin|_];
    [|reflexivity].
  exfalso. apply Hage. apply PyFacts.in_range in Hin. lia.
Qed.

(** With no return and no increase the frame records the rounded sum of
    the payments made so far. *)
Lemma assets_at_zero_rates
    (early_amt base_amt : R) (s e : Z) (pension_type : string)
    (regular_start early_start age : Z) (amt : R) :
  pension_source pension_type early_amt base_amt early_start regular_start
  = (amt, s) ->
  s <= age <= e ->
  assets_at
    (simulate_investment 0 early_amt base_amt 0 s e 0 pension_type
       regular_start early_start) age
  = Some (Py.round (amt * 12 * IZR (age - s + 1))).
Proof.
  intros Hsrc Hage. rewrite assets_at_simulated by exact Hage.
  rewrite (capital_zero_rates early_amt base_amt 0 0 pension_type
             regular_start early_start amt s (age + 1))
    by (reflexivity || assumption || lia).
  replace (age + 1 - s) with (age - s + 1) by lia. reflexivity.
Qed.

(** C7.  The loop never rounds its running capital: after any age the
    capital it carries is the one compounded in full precision without any
    recording, and the row recorded for that age holds the rounding of that
    capital; the whole frame is these roundings, age by age. *)
Theorem recording_does_not_feed_back
    (initial_capital early_amt base_amt annual_return_rate : R) (s e : Z)
    (pension_increase_rate : R) (pension_type : string)
    (regular_start early_start age : Z) :
  s <= age <= e ->
  fst (simulate_loop initial_capital early_amt base_amt annual_return_rate
         s age pension_increase_rate pension_type regular_start early_start)
  = compound_capital early_amt base_amt annual_return_rate
      pension_increase_rate pension_type regular_start early_start
      initial_capital (Py.range s (age + 1))
  /\ assets_at
       (simulate_investment initial_capital early_amt base_amt
          annual_return_rate s e pension_increase_rate pension_type
          regular_start early_start) age
     = Some (Py.round
               (compound_capital early_amt base_amt annual_return_rate
                  pension_increase_rate pension_type regular_start
                  early_start initial_capital (Py.range s (age + 1))))
  /\ simulate_investment initial_capital early_amt base_amt
       annual_return_rate s e pension_increase_rate pension_type
       regular_start early_start
     = map (fun a =>
              mk_asset_row a
                (Py.round
                   (compound_capital early_amt base_amt annual_return_rate
                      pension_increase_rate pension_type regular_start
                      early_start initial_capital (Py.range s (a + 1)))))
         (Py.range s (e + 1)).
Proof.
  intros Hage. split; [|split].
  - now rewrite simulate_loop_eq.
  - now apply assets_at_simulated.
  - apply simulate_investment_eq.
Qed.

Lemma recording_does_not_feed_back_witness :
  60 <= 62 <= 80
  /\ fst (simulate_loop 0 700000 1000000 0.05 60 62 0.034 "early" 65 60)
     = compound_capital 700000 1000000 0.05 0.034 "early" 65 60 0
         (Py.range 60 (62 + 1)).
Proof.
  split; [lia|].
  apply (recording_does_not_feed_back
           0 700000 1000000 0.05 60 80 0.034 "early" 65 60 62).
  lia.
Defined.

(** C5.  With a non-negative return rate and a non-negative pension
    income at every simulated age, the assets recorded in the frame do not
    decrease with age. *)
Theorem recorded_assets_non_decreasing
    (early_amt base_amt annual_return_rate : R) (s e : Z)
    (pension_increase_rate : R) (pension_type : string)
    (regular_start early_start a b : Z) :
  (0 <= annual_return_rate)%R ->
  (forall age, s <= age <= e ->
     (0 <= annual_pension_income_for_current_year early_amt base_amt
             pension_increase_rate pension_type regular_start early_start
             age)%R) ->
  s <= a -> a <= b -> b <= e ->
  exists va vb : Z,
    assets_at
      (simulate_investment 0 early_amt base_amt annual_return_rate s e
         pension_increase_rate pension_type regular_start early_start) a
    = Some va
    /\ assets_at
         (simulate_investment 0 early_amt base_amt annual_return_rate s e
            pension_increase_rate pension_type regular_start early_start) b
       = Some vb
    /\ va <= vb.
Proof.
  intros Hr Hi Hsa Hab Hbe.
  rewrite !assets_at_simulated by lia.
  eexists. eexists. split; [reflexivity|]. split; [reflexivity|].
  apply PyFacts.round_le. apply capital_mono; try lra; try lia.
  intros age Hage. apply Hi. lia.
Qed.

Lemma annual_pension_nonneg (amt : R) (s a : Z) (r : R) :
  (0 <= amt)%R -> (0 <= r)%R ->
  (0 <= calculate_annual_pension_with_increase_rate amt s a r)%R.
Proof.
  intros Hamt Hr. destruct (Z.lt_ge_cases a s) as [Hlt|Hge].
  - rewrite annual_pension_before_start by exact Hlt. lra.
  - rewrite annual_pension_from_start by exact Hge.
    assert (0 <= (1 + r) ^ Z.to_nat (a - s))%R by (apply pow_le; lra).
    nra.
Qed.

Lemma recorded_assets_non_decreasing_witness :
  (0 <= 0.05)%R /\ 60 <= 61 /\ 61 <= 70 /\ 70 <= 80
  /\ exists va vb : Z,
       assets_at
         (simulate_investment 0 700000 1000000 0.05 60 80 0.034 "early"
            65 60) 61 = Some va
       /\ assets_at
            (simulate_investment 0 700000 1000000 0.05 60 80 0.034 "early"
               65 60) 70 = Some vb
       /\ va <= vb.
Proof.
  split; [lra|]. split; [lia|]. split; [lia|]. split; [lia|].
  apply (recorded_assets_non_decreasing
           700000 1000000 0.05 60 80 0.034 "early" 65 60 61 70);
    try lia; try lra.
  intros age _. unfold annual_pension_income_for_current_year.
  cbn [String.eqb Ascii.eqb Bool.eqb].
  apply annual_pension_nonneg; lra.
Defined.

(** C6, as the claim states it, fails: the recorded value is rounded.
    With a monthly base of 100001 claimed one year early the early amount
    is 94000.94; with no return and no increase the first recorded value
    is 1128011, not 94000.94 * 12. *)
Lemma zero_rates_first_record_is_rounded :
  assets_at (early_pension_df 65 100001 1 66 0 0) 64 = Some 1128011
  /\ IZR 1128011
     <> (early_monthly_pension_at_start 100001 1 * 12 * IZR (64 - 64 + 1))%R.
Proof.
  split.
  - unfold early_pension_df.
    change (early_pension_start_age 65 1) with 64.
    rewrite (assets_at_zero_rates _ _ 64 66 "early" 65 64 64
               (early_monthly_pension_at_start 100001 1))
      by (reflexivity || lia).
    f_equal. apply PyFacts.round_near.
    unfold early_monthly_pension_at_start, early_pension_reduction_rate,
      calculate_early_pension_reduction_rate.
    simpl (64 - 64 + 1). lra.
  - unfold early_monthly_pension_at_start, early_pension_reduction_rate,
      calculate_early_pension_reduction_rate.
    simpl (64 - 64 + 1). lra.
Qed.

(** C6, amended.  With no return and no increase, a simulation that
    starts at the start age [s] of its own pension records at every age
    [A] from [s] to the end age the rounding of
    [amt * 12 * (A - s + 1)], where [amt] is the monthly amount of that
    pension; the recorded value is that product itself whenever the
    product is an integer, as it is for an integer amount. *)
Theorem zero_rates_recorded_assets
    (early_amt base_amt : R) (s e : Z) (pension_type : string)
    (regular_start early_start age : Z) (amt : R) :
  pension_source pension_type early_amt base_amt early_start regular_start
  = (amt, s) ->
  s <= age <= e ->
  assets_at
    (simulate_investment 0 early_amt base_amt 0 s e 0 pension_type
       regular_start early_start) age
  = Some (Py.round (amt * 12 * IZR (age - s + 1)))
  /\ (forall z : Z,
        (amt * 12 * IZR (age - s + 1))%R = IZR z ->
        assets_at
          (simulate_investment 0 early_amt base_amt 0 s e 0 pension_type
             regular_start early_start) age
        = Some z)
  /\ (forall n : Z,
        amt = IZR n ->
        assets_at
          (simulate_investment 0 early_amt base_amt 0 s e 0 pension_type
             regular_start early_start) age
        = Some (n * 12 * (age - s + 1))).
Proof.
  intros Hsrc Hage.
  rewrite (assets_at_zero_rates _ _ _ _ _ _ _ _ amt Hsrc Hage).
  split; [reflexivity|]. split.
  - intros z ->. now rewrite PyFacts.round_IZR.
  - intros n ->. rewrite <- !mult_IZR. now rewrite PyFacts.round_IZR.
Qed.

Lemma zero_rates_recorded_assets_witness :
  pension_source "regular" 700000 1000000 60 65 = (1000000%R, 65)
  /\ 65 <= 67 <= 80
  /\ assets_at
       (simulate_investment 0 700000 1000000 0 65 80 0 "regular" 65 60) 67
     = Some (1000000 * 12 * (67 - 65 + 1)).
Proof.
  split; [reflexivity|]. split; [lia|].
  apply (zero_rates_recorded_assets
           700000 1000000 65 80 "regular" 65 60 67 1000000);
    [reflexivity|lia|reflexivity].
Defined.

(** ** The merged table *)

Section Merge.

Lemma filter_absent_key (right : list asset_row) (k : Z) :
  ~ In k (map row_age right) ->
  filter (fun r => row_age r =? k) right = [].
Proof.
  induction right as [|r rest IH]; intros Hk; [reflexivity|].
  cbn [filter]. destruct (Z.eqb_spec (row_age r) k) as [Heq|Hne].
  - exfalso. apply Hk. now left.
  - apply IH. intros Hin. apply Hk. now right.
Qed.

(** In a frame with one row per age at most, the rows of a given age
    are the one [find] returns. *)
Lemma filter_unique_key (right : list asset_row) (k : Z) :
  NoDup (map row_age right) ->
  filter (fun r => row_age r =? k) right
  = match find (fun r => row_age r =? k) right with
    | Some r => [r]
    | None => []
    end.
Proof.
  induction right as [|r rest IH]; intros Hnd; [reflexivity|].
  cbn [map] in Hnd. apply NoDup_cons_iff in Hnd as [Hnotin Hnd].
  cbn [filter find]. destruct (Z.eqb_spec (row_age r) k) as [Heq|Hne].
  - rewrite filter_absent_key; [reflexivity|]. now rewrite <- Heq.
  - now apply IH.
Qed.

Lemma flat_map_unique_keys {A : Type} (key : A -> Z) (left : list A)
    (right : list asset_row) :
  NoDup (map row_age right) ->
  flat_map
    (fun l =>
       match filter (fun r => row_age r =? key l) right with
       | [] => [(l, None)]
       | matches => map (fun r => (l, Some (row_assets r))) matches
       end)
    left
  = map (fun l => (l, assets_at right (key l))) left.
Proof.
  intros Hnd. induction left as [|l ls IH]; [reflexivity|].
  cbn [map]. rewrite <- IH. clear IH. cbn [flat_map].
  rewrite filter_unique_key by exact Hnd.
  unfold assets_at.
  destruct (find (fun r => row_age r =? key l) right); reflexivity.
Qed.

Lemma merge_left_unique_keys {A : Type} (key : A -> Z) (left : list A)
    (right : list asset_row) :
  right <> [] -> NoDup (map row_age right) ->
  merge_left key left right
  = Some (map (fun l => (l, assets_at right (key l))) left).
Proof.
  intros Hne Hnd. unfold merge_left.
  destruct right as [|r0 rest]; [contradiction|].
  f_equal. now apply flat_map_unique_keys.
Qed.

Lemma build_merged_df_unique_keys (start_age end_age : Z)
    (early_df regular_df : list asset_row) :
  early_df <> [] -> regular_df <> [] ->
  NoDup (map row_age early_df) -> NoDup (map row_age regular_df) ->
  build_merged_df start_age end_age early_df regular_df
  = Some (map (fun a =>
                 with_delta (a, assets_at early_df a, assets_at regular_df a))
            (Py.range start_age (end_age + 1))).
Proof.
  intros He Hr Hnde Hndr. unfold build_merged_df.
  rewrite (merge_left_unique_keys (fun a => a)) by assumption.
  rewrite (merge_left_unique_keys fst) by assumption.
  now rewrite !map_map.
Qed.

Lemma simulated_nonempty
    (c0 early_amt base_amt annual_return_rate : R) (s e : Z)
    (pension_increase_rate : R) (pension_type : string)
    (regular_start early_start : Z) :
  s <= e ->
  simulate_investment c0 early_amt base_amt annual_return_rate s e
    pension_increase_rate pension_type regular_start early_start <> [].
Proof.
  intros Hse. rewrite simulate_investment_eq.
  rewrite PyFacts.range_cons by lia. discriminate.
Qed.

Lemma simulated_unique_ages
    (c0 early_amt base_amt annual_return_rate : R) (s e : Z)
    (pension_increase_rate : R) (pension_type : string)
    (regular_start early_start : Z) :
  NoDup (map row_age
           (simulate_investment c0 early_amt base_amt annual_return_rate
              s e pension_increase_rate pension_type regular_start
              early_start)).
Proof. rewrite simulate_investment_ages. apply PyFacts.range_NoDup. Qed.

(** The merged table of the script, one row per age of the range. *)
Lemma merged_df_rows (reg base years e : Z) (ret inc : R) :
  0 <= years -> reg <= e ->
  merged_df reg base years e ret inc
  = Some (map (fun a =>
                 with_delta
                   (a,
                    assets_at (early_pension_df reg base years e ret inc) a,
                    assets_at (regular_pension_df reg base years e ret inc) a))
            (Py.range (early_pension_start_age reg years) (e + 1))).
Proof.
  intros Hy Hre. unfold merged_df.
  apply build_merged_df_unique_keys.
  - apply simulated_nonempty. unfold early_pension_start_age. lia.
  - apply simulated_nonempty. exact Hre.
  - apply simulated_unique_ages.
  - apply simulated_unique_ages.
Qed.

End Merge.

(** C3.  The merged table has one row for every age from the early start
    age to the end age, in order; the early column holds the early frame's
    value; below the regular start age the regular frame has no row and
    the regular column holds 0; from the regular start age on the regular
    column holds the regular frame's value; and the delta is the early
    value minus the regular one. *)
Theorem merged_df_covers_the_age_range
    (reg base years e : Z) (ret inc : R) :
  0 <= years -> reg <= e ->
  exists merged : list merged_row,
    merged_df reg base years e ret inc = Some merged
    /\ map m_age merged = Py.range (early_pension_start_age reg years) (e + 1)
    /\ forall row : merged_row,
         In row merged ->
         exists early_assets : Z,
           assets_at (early_pension_df reg base years e ret inc) (m_age row)
           = Some early_assets
           /\ m_early row = Some early_assets
           /\ (m_age row < reg ->
               assets_at (regular_pension_df reg base years e ret inc)
                 (m_age row) = None
               /\ m_regular row = 0
               /\ m_delta row = Some early_assets)
           /\ (reg <= m_age row ->
               exists regular_assets : Z,
                 assets_at (regular_pension_df reg base years e ret inc)
                   (m_age row) = Some regular_assets
                 /\ m_regular row = regular_assets
                 /\ m_delta row = Some (early_assets - regular_assets))
           /\ m_delta row = Some (early_assets - m_regular row).
Proof.
  intros Hy Hre. eexists. split; [now apply merged_df_rows|]. split.
  - rewrite map_map. unfold with_delta. cbn [m_age]. apply map_id.
  - intros row Hrow. apply in_map_iff in Hrow as [a [<- Ha]].
    apply PyFacts.in_range in Ha.
    unfold with_delta. cbn [m_age m_early m_regular m_delta].
    assert (assets_at (early_pension_df reg base years e ret inc) a
            = Some (Py.round
                      (compound_capital
                         (early_monthly_pension_at_start base years)
                         (IZR base) ret inc "early" reg
                         (early_pension_start_age reg years) 0%R
                         (Py.range (early_pension_start_age reg years)
                            (a + 1))))) as Hearly.
    { unfold early_pension_df. apply assets_at_simulated. lia. }
    rewrite Hearly. eexists.
    split; [reflexivity|]. split; [reflexivity|].
    split; [|split; [|reflexivity]].
    + intros Hlt. unfold regular_pension_df.
      rewrite assets_at_not_simulated by lia.
      cbn [fillna0]. rewrite Z.sub_0_r. repeat split; reflexivity.
    + intros Hge. unfold regular_pension_df.
      rewrite assets_at_simulated by lia.
      eexists. cbn [fillna0]. repeat split; reflexivity.
Qed.

Lemma merged_df_covers_the_age_range_witness :
  0 <= 5 /\ 65 <= 80
  /\ exists merged : list merged_row,
       merged_df 65 1000000 5 80 0.05 0.034 = Some merged
       /\ map m_age merged = Py.range (early_pension_start_age 65 5) (80 + 1)
       /\ forall row : merged_row,
            In row merged -> 65 <= m_age row ->
            exists regular_assets : Z,
              assets_at (regular_pension_df 65 1000000 5 80 0.05 0.034)
                (m_age row) = Some regular_assets
              /\ m_regular row = regular_assets.
Proof.
  split; [lia|]. split; [lia|].
  destruct (merged_df_covers_the_age_range 65 1000000 5 80 0.05 0.034)
    as [merged [Hm [Hages Hrows]]]; [lia|lia|].
  exists merged. split; [exact Hm|]. split; [exact Hages|].
  intros row Hrow Hage.
  destruct (Hrows row Hrow) as (ve & _ & _ & _ & Hfrom & _).
  destruct (Hfrom Hage) as (vr & Hvr & Hkeep & _).
  exists vr. split; assumption.
Defined.

(** ** The crossover scan *)

Section Crossover.

Variable merged : list merged_row.

Lemma crossing_test_sign_change (i : nat) :
  crossing_test merged i = true <-> sign_change merged i.
Proof.
  unfold crossing_test, falls_at, rises_at, sign_change.
  destruct (m_delta (iloc merged (i - 1))) as [p|];
    destruct (m_delta (iloc merged i)) as [c|];
    cbn [cell_gt0 cell_lt0 cell_le0 cell_ge0 andb orb].
  - rewrite orb_true_iff, !andb_true_iff.
    rewrite !Z.ltb_lt, !Z.leb_le. split.
    + intros H. exists p, c. split; [reflexivity|]. split; [reflexivity|].
      lia.
    + intros (p' & c' & [= <-] & [= <-] & H). lia.
  - rewrite !andb_false_r. split; [discriminate|].
    intros (p' & c' & _ & Hc & _). discriminate.
  - split; [discriminate|]. intros (p' & c' & Hp & _). discriminate.
  - split; [discriminate|]. intros (p' & c' & Hp & _). discriminate.
Qed.

Lemma crossing_test_no_sign_change (i : nat) :
  crossing_test merged i = false <-> ~ sign_change merged i.
Proof.
  rewrite <- crossing_test_sign_change.
  destruct (crossing_test merged i); split; congruence.
Qed.

Lemma scan_step (i : nat) (rest : list nat) :
  crossover_scan merged (i :: rest)
  = if crossing_test merged i then Some (m_age (iloc merged i))
    else crossover_scan merged rest.
Proof.
  cbn [crossover_scan]. unfold crossing_test.
  destruct (falls_at merged i), (rises_at merged i); reflexivity.
Qed.

Lemma scan_seq_some (len start : nat) (age : Z) :
  crossover_scan merged (seq start len) = Some age
  <-> exists i : nat,
        (start <= i < start + len)%nat
        /\ crossing_test merged i = true
        /\ (forall j : nat, (start <= j < i)%nat ->
              crossing_test merged j = false)
        /\ m_age (iloc merged i) = age.
Proof.
  revert start. induction len as [|len IH]; intros start.
  - cbn [seq crossover_scan]. split; [discriminate|].
    intros (i & Hi & _). lia.
  - cbn [seq]. rewrite scan_step.
    destruct (crossing_test merged start) eqn:Hstart.
    + split.
      * intros [= <-]. exists start.
        split; [lia|]. split; [exact Hstart|]. split; [|reflexivity].
        intros j Hj. lia.
      * intros (i & Hi & Hti & Hfirst & <-).
        destruct (Nat.eq_dec i start) as [->|Hne]; [reflexivity|].
        rewrite Hfirst in Hstart by lia. discriminate.
    + rewrite IH. split.
      * intros (i & Hi & Hti & Hfirst & Hage).
        exists i. split; [lia|]. split; [exact Hti|]. split; [|exact Hage].
        intros j Hj. destruct (Nat.eq_dec j start) as [->|Hne];
          [exact Hstart|apply Hfirst; lia].
      * intros (i & Hi & Hti & Hfirst & Hage).
        assert (i <> start) as Hne by (intros ->; congruence).
        exists i. split; [lia|]. split; [exact Hti|]. split; [|exact Hage].
        intros j Hj. apply Hfirst. lia.
Qed.

Lemma scan_seq_none (len start : nat) :
  crossover_scan merged (seq start len) = None
  <-> forall i : nat, (start <= i < start + len)%nat ->
        crossing_test merged i = false.
Proof.
  revert start. induction len as [|len IH]; intros start.
  - cbn [seq crossover_scan]. split; [|reflexivity]. intros _ i Hi. lia.
  - cbn [seq]. rewrite scan_step.
    destruct (crossing_test merged start) eqn:Hstart.
    + split; [discriminate|]. intros H.
      rewrite H in Hstart by lia. discriminate.
    + rewrite IH. split.
      * intros H i Hi. destruct (Nat.eq_dec i start) as [->|Hne];
          [exact Hstart|apply H; lia].
      * intros H i Hi. apply H. lia.
Qed.

End Crossover.

(** C2.  The scan visits the positions 1, 2, ... in order and reports the
    age at the first position where the delta was positive and is now zero
    or negative, or was negative and is now zero or positive; it reports
    nothing exactly when there is no such position.  On the deltas
    5, 2, -1, -3 at ages 65 to 68 it reports 67, and on 3, 0, -2 it reports
    the age of the 0. *)
Theorem crossover_age_is_first_sign_change :
  (forall (merged : list merged_row) (age : Z),
     crossover_age merged = Some age
     <-> exists i : nat,
           (1 <= i < List.length merged)%nat
           /\ sign_change merged i
           /\ (forall j : nat, (1 <= j < i)%nat -> ~ sign_change merged j)
           /\ m_age (iloc merged i) = age)
  /\ (forall merged : list merged_row,
        crossover_age merged = None
        <-> forall i : nat, (1 <= i < List.length merged)%nat ->
              ~ sign_change merged i)
  /\ crossover_age (frame_of_deltas [65; 66; 67; 68] [5; 2; -1; -3])
     = Some 67
  /\ (forall a0 a1 a2 : Z,
        crossover_age (frame_of_deltas [a0; a1; a2] [3; 0; -2]) = Some a1).
Proof.
  split; [|split; [|split]].
  - intros merged age. unfold crossover_age. rewrite scan_seq_some. split.
    + intros (i & Hi & Hti & Hfirst & Hage). exists i.
      split; [lia|]. split; [now apply crossing_test_sign_change|].
      split; [|exact Hage].
      intros j Hj. apply crossing_test_no_sign_change. apply Hfirst. lia.
    + intros (i & Hi & Hti & Hfirst & Hage). exists i.
      split; [lia|]. split; [now apply crossing_test_sign_change|].
      split; [|exact Hage].
      intros j Hj. apply crossing_test_no_sign_change. apply Hfirst. lia.
  - intros merged. unfold crossover_age. rewrite scan_seq_none. split.
    + intros H i Hi. apply crossing_test_no_sign_change. apply H. lia.
    + intros H i Hi. apply crossing_test_no_sign_change. apply H. lia.
  - reflexivity.
  - intros a0 a1 a2. reflexivity.
Qed.

(** ** Claiming at the regular age *)

Section NoEarlyYears.

Lemma early_start_without_early_years (reg : Z) :
  early_pension_start_age reg 0 = reg.
Proof. unfold early_pension_start_age. lia. Qed.

Lemma reduction_rate_without_early_years :
  early_pension_reduction_rate 0 = 1%R.
Proof.
  unfold early_pension_reduction_rate,
    calculate_early_pension_reduction_rate. lra.
Qed.

Lemma early_amount_without_early_years (base : Z) :
  early_monthly_pension_at_start base 0 = IZR base.
Proof.
  unfold early_monthly_pension_at_start.
  rewrite reduction_rate_without_early_years. ring.
Qed.

(** With the same amount and the same start age on both branches the
    loop body does not depend on the pension type. *)
Lemma simulate_same_source
    (c0 amt annual_return_rate : R) (s e : Z) (pension_increase_rate : R)
    (start : Z) :
  simulate_investment c0 amt amt annual_return_rate s e
    pension_increase_rate "early" start start
  = simulate_investment c0 amt amt annual_return_rate s e
      pension_increase_rate "regular" start start.
Proof. reflexivity. Qed.

Lemma frames_equal_without_early_years (reg base e : Z) (ret inc : R) :
  early_pension_df reg base 0 e ret inc
  = regular_pension_df reg base 0 e ret inc.
Proof.
  unfold early_pension_df, regular_pension_df.
  rewrite early_start_without_early_years,
    early_amount_without_early_years.
  apply simulate_same_source.
Qed.

Lemma zero_delta_cells (merged : list merged_row) (i : nat) :
  (forall row, In row merged -> m_delta row = Some 0) ->
  cell_gt0 (m_delta (iloc merged i)) = false
  /\ cell_lt0 (m_delta (iloc merged i)) = false.
Proof.
  intros Hzero. unfold iloc.
  destruct (nth_in_or_default i merged (mk_merged_row 0 None 0 None))
    as [Hin|Hdef].
  - rewrite (Hzero _ Hin). split; reflexivity.
  - rewrite Hdef. split; reflexivity.
Qed.

Lemma zero_deltas_never_cross (merged : list merged_row) :
  (forall row, In row merged -> m_delta row = Some 0) ->
  crossover_age merged = None.
Proof.
  intros Hzero. unfold crossover_age. apply scan_seq_none.
  intros i _. unfold crossing_test, falls_at, rises_at.
  destruct (zero_delta_cells merged (i - 1) Hzero) as [-> ->].
  reflexivity.
Qed.

End NoEarlyYears.

(** C10.  With no early year the reduction rate is 1 and the early start
    age is the regular one; the two simulations return the same frame, the
    merged table has delta 0 at every age from the regular start age to
    the end age, and the scan reports no crossover age. *)
Theorem no_early_years_no_crossover (reg base e : Z) (ret inc : R) :
  reg <= e ->
  early_pension_start_age reg 0 = reg
  /\ early_pension_reduction_rate 0 = 1%R
  /\ early_pension_df reg base 0 e ret inc
     = regular_pension_df reg base 0 e ret inc
  /\ exists merged : list merged_row,
       merged_df reg base 0 e ret inc = Some merged
       /\ map m_age merged = Py.range reg (e + 1)
       /\ (forall row, In row merged -> m_delta row = Some 0)
       /\ crossover_age merged = None
       /\ script_crossover_age reg base 0 e ret inc = None.
Proof.
  intros Hre.
  split; [apply early_start_without_early_years|].
  split; [apply reduction_rate_without_early_years|].
  split; [apply frames_equal_without_early_years|].
  assert (forall row,
            In row
              (map (fun a =>
                      with_delta
                        (a,
                         assets_at (early_pension_df reg base 0 e ret inc) a,
                         assets_at (regular_pension_df reg base 0 e ret inc) a))
                 (Py.range (early_pension_start_age reg 0) (e + 1))) ->
            m_delta row = Some 0) as Hzero.
  { intros row Hrow. apply in_map_iff in Hrow as [a [<- Ha]].
    rewrite early_start_without_early_years in Ha.
    apply PyFacts.in_range in Ha.
    rewrite frames_equal_without_early_years.
    unfold regular_pension_df. rewrite assets_at_simulated by lia.
    unfold with_delta. cbn [m_delta fillna0]. now rewrite Z.sub_diag. }
  eexists. split; [apply merged_df_rows; lia|].
  split; [|split; [exact Hzero|split]].
  - rewrite map_map. unfold with_delta. cbn [m_age].
    rewrite early_start_without_early_years. apply map_id.
  - now apply zero_deltas_never_cross.
  - unfold script_crossover_age. rewrite merged_df_rows by lia.
    now apply zero_deltas_never_cross.
Qed.

Lemma no_early_years_no_crossover_witness :
  65 <= 80
  /\ early_pension_df 65 1000000 0 80 0.05 0.034
     = regular_pension_df 65 1000000 0 80 0.05 0.034
  /\ script_crossover_age 65 1000000 0 80 0.05 0.034 = None.
Proof.
  split; [lia|].
  destruct (no_early_years_no_crossover 65 1000000 80 0.05 0.034)
    as (_ & _ & Hsame & merged & _ & _ & _ & _ & Hnone); [lia|].
  split; assumption.
Defined.

(** * Further properties of the code *)

(** ** The pension adjuster, year after year *)

(** X1.  For a positive amount and a positive increase rate the yearly
    pension is positive at the start age and strictly larger at each
    further age. *)
Theorem annual_pension_increases_each_year (amt : R) (s a : Z) (r : R) :
  (0 < amt)%R -> (0 < r)%R -> s <= a ->
  (0 < calculate_annual_pension_with_increase_rate amt s a r
   < calculate_annual_pension_with_increase_rate amt s (a + 1) r)%R.
Proof.
  intros Hamt Hr Hsa. rewrite !annual_pension_from_start by lia.
  replace (Z.to_nat (a + 1 - s)) with (S (Z.to_nat (a - s))) by lia.
  rewrite <- tech_pow_Rmult.
  assert (0 < (1 + r) ^ Z.to_nat (a - s))%R as Hpow
    by (apply pow_lt; lra).
  set (p := ((1 + r) ^ Z.to_nat (a - s))%R) in *.
  assert (0 < amt * p)%R as Hmonthly by now apply Rmult_lt_0_compat.
  assert (0 < r * (amt * p))%R as Hraise by now apply Rmult_lt_0_compat.
  replace (amt * ((1 + r) * p) * 12)%R
    with (amt * p * 12 + r * (amt * p) * 12)%R by ring.
  split; lra.
Qed.

Lemma annual_pension_increases_each_year_witness :
  (0 < 1000000)%R /\ (0 < 0.034)%R /\ 65 <= 70
  /\ (0 < calculate_annual_pension_with_increase_rate 1000000 65 70 0.034
      < calculate_annual_pension_with_increase_rate 1000000 65 (70 + 1)
          0.034)%R.
Proof.
  split; [lra|]. split; [lra|]. split; [lia|].
  apply (annual_pension_increases_each_year 1000000 65 70 0.034);
    [lra|lra|lia].
Defined.

(** X2.  For a non-negative amount and a non-negative increase rate the
    yearly pension never decreases with age, the years before the start
    age included. *)
Theorem annual_pension_non_decreasing_in_age (amt : R) (s a b : Z) (r : R) :
  (0 <= amt)%R -> (0 <= r)%R -> a <= b ->
  (calculate_annual_pension_with_increase_rate amt s a r
   <= calculate_annual_pension_with_increase_rate amt s b r)%R.
Proof.
  intros Hamt Hr Hab. destruct (Z.lt_ge_cases a s) as [Hlt|Hge].
  - rewrite (annual_pension_before_start amt s a r) by exact Hlt.
    now apply annual_pension_nonneg.
  - rewrite !annual_pension_from_start by lia.
    assert ((1 + r) ^ Z.to_nat (a - s) <= (1 + r) ^ Z.to_nat (b - s))%R
      as Hpow by (apply Rle_pow; [lra|lia]).
    assert (0 <= (1 + r) ^ Z.to_nat (a - s))%R by (apply pow_le; lra).
    nra.
Qed.

Lemma annual_pension_non_decreasing_in_age_witness :
  (0 <= 1000000)%R /\ (0 <= 0.034)%R /\ 60 <= 70
  /\ (calculate_annual_pension_with_increase_rate 1000000 65 60 0.034
      <= calculate_annual_pension_with_increase_rate 1000000 65 70 0.034)%R.
Proof.
  split; [lra|]. split; [lra|]. split; [lia|].
  apply (annual_pension_non_decreasing_in_age 1000000 65 60 70 0.034);
    [lra|lra|lia].
Defined.

(** X3.  For zero to five early years and a non-negative base amount, the
    early monthly amount lies between 70 percent of the base and the base,
    and it is strictly below a positive base as soon as one year is
    claimed early. *)
Theorem early_amount_between_70_and_100_percent (base years : Z) :
  0 <= years <= 5 -> 0 <= base ->
  (0.7 * IZR base <= early_monthly_pension_at_start base years <= IZR base)%R
  /\ (1 <= years -> 0 < base ->
      (early_monthly_pension_at_start base years < IZR base)%R).
Proof.
  intros [Hy0 Hy5] Hb.
  apply IZR_le in Hy0, Hy5, Hb.
  unfold early_monthly_pension_at_start, early_pension_reduction_rate,
    calculate_early_pension_reduction_rate.
  split; [split; nra|].
  intros Hy1 Hbpos. apply IZR_le in Hy1. apply IZR_lt in Hbpos. nra.
Qed.

Lemma early_amount_between_70_and_100_percent_witness :
  0 <= 5 <= 5 /\ 0 <= 1000000
  /\ (0.7 * IZR 1000000 <= early_monthly_pension_at_start 1000000 5
      <= IZR 1000000)%R.
Proof.
  split; [lia|]. split; [lia|].
  apply (early_amount_between_70_and_100_percent 1000000 5); lia.
Defined.

(** X4.  For a non-negative annual rate the quarterly rate is
    non-negative and at most a quarter of the annual rate. *)
Theorem quarterly_rate_at_most_a_quarter (annual_return_rate : R) :
  (0 <= annual_return_rate ->
   0 <= quarterly_return_rate annual_return_rate <= annual_return_rate / 4)%R.
Proof.
  intros Hr. split; [now apply quarterly_rate_nonneg|].
  pose proof (quarterly_growth_pow4 annual_return_rate ltac:(lra)) as H4.
  pose proof (quarterly_rate_nonneg annual_return_rate Hr) as Hq.
  set (q := quarterly_return_rate annual_return_rate) in *.
  destruct (Rle_lt_dec q (annual_return_rate / 4)) as [Hle|Hgt];
    [exact Hle|].
  exfalso.
  set (h := (1 + annual_return_rate / 4)%R).
  assert (1 <= h)%R as Hh by (unfold h; lra).
  assert (h < 1 + q)%R as Hlt by (unfold h; lra).
  assert (h * h < (1 + q) * (1 + q))%R as H2 by nra.
  assert (1 <= h * h)%R as Hh2 by nra.
  assert ((h * h) * (h * h) < ((1 + q) * (1 + q)) * ((1 + q) * (1 + q)))%R
    as H4' by nra.
  assert (1 + annual_return_rate <= (h * h) * (h * h))%R as Hbern.
  { unfold h. nra. }
  replace ((1 + q) ^ 4)%R
    with (((1 + q) * (1 + q)) * ((1 + q) * (1 + q)))%R in H4 by ring.
  lra.
Qed.

Lemma quarterly_rate_at_most_a_quarter_witness :
  (0 <= 0.05 /\ 0 <= quarterly_return_rate 0.05 <= 0.05 / 4)%R.
Proof.
  split; [lra|].
  apply (quarterly_rate_at_most_a_quarter 0.05). lra.
Defined.

(** ** The simulation, beyond the recorded claims *)

Lemma round_within_half (x : R) :
  (x - 1 / 2 <= IZR (Py.round x) <= x + 1 / 2)%R.
Proof.
  unfold Py.round. pose proof (Zfloor_bound x) as Hf.
  destruct (Rlt_dec (x - IZR (Zfloor x)) (1 / 2)) as [H1|H1]; [lra|].
  destruct (Rlt_dec (1 / 2) (x - IZR (Zfloor x))) as [H2|H2];
    [rewrite plus_IZR; lra|].
  destruct (Z.even (Zfloor x)); [lra|rewrite plus_IZR; lra].
Qed.

Lemma round_lt_of_gap (x y : R) :
  (x + 1 < y)%R -> Py.round x < Py.round y.
Proof.
  intros Hxy. apply lt_IZR.
  pose proof (round_within_half x). pose proof (round_within_half y). lra.
Qed.

Section SimulationYears.

Variables early_amt base_amt : R.
Variables annual_return_rate pension_increase_rate : R.
Variable pension_type : string.
Variables regular_start early_start : Z.

Let income : Z -> R :=
  annual_pension_income_for_current_year early_amt base_amt
    pension_increase_rate pension_type regular_start early_start.
Let year : R -> Z -> R :=
  year_capital early_amt base_amt annual_return_rate pension_increase_rate
    pension_type regular_start early_start.
Let capital : R -> list Z -> R :=
  compound_capital early_amt base_amt annual_return_rate
    pension_increase_rate pension_type regular_start early_start.

Open Scope R_scope.

Lemma year_unfold (c : R) (age : Z) :
  year c age
  = Nat.iter 4
      (quarter_body (income age / 12)
         (quarterly_return_rate annual_return_rate)) c.
Proof. reflexivity. Qed.

Lemma capital_last (c0 : R) (a b : Z) :
  (a < b)%Z ->
  capital c0 (Py.range a b) = year (capital c0 (Py.range a (b - 1))) (b - 1).
Proof.
  intros Hab. rewrite (PyFacts.range_snoc_last a b) by exact Hab.
  apply capital_snoc.
Qed.

Lemma year_of_nothing (age : Z) :
  income age = 0 -> year 0 age = 0.
Proof.
  intros Hi. rewrite year_unfold, Hi.
  cbn [Nat.iter nat_rect]. unfold quarter_body. field.
Qed.

(** From an empty capital, years without income leave the capital
    empty. *)
Lemma capital_of_nothing (s b : Z) :
  (forall age, (s <= age < b)%Z -> income age = 0) ->
  capital 0 (Py.range s b) = 0.
Proof.
  intros Hi.
  remember (Z.to_nat (b - s)) as n eqn:Hn.
  revert b Hi Hn. induction n as [|n IH]; intros b Hi Hn.
  - rewrite PyFacts.range_nil by lia. reflexivity.
  - rewrite capital_last by lia.
    rewrite (IH (b - 1)%Z) by (try lia; intros age Hage; apply Hi; lia).
    apply year_of_nothing. apply Hi. lia.
Qed.

Lemma quarter_body_adds (m q c : R) :
  0 <= m -> 0 <= q -> 0 <= c -> c + m * 3 <= quarter_body m q c.
Proof. intros Hm Hq Hc. unfold quarter_body. nra. Qed.

Lemma year_adds_income (c : R) (age : Z) :
  0 <= annual_return_rate -> 0 <= income age -> 0 <= c ->
  c + income age <= year c age.
Proof.
  intros Hr Hi Hc. rewrite year_unfold.
  pose proof (quarterly_rate_nonneg annual_return_rate Hr) as Hq.
  set (q := quarterly_return_rate annual_return_rate) in *.
  set (m := income age / 12).
  assert (0 <= m) as Hm by (unfold m; lra).
  cbn [Nat.iter nat_rect].
  pose proof (quarter_body_adds m q c Hm Hq Hc) as H1.
  set (x1 := quarter_body m q c) in *.
  pose proof (quarter_body_adds m q x1 Hm Hq ltac:(lra)) as H2.
  set (x2 := quarter_body m q x1) in *.
  pose proof (quarter_body_adds m q x2 Hm Hq ltac:(lra)) as H3.
  set (x3 := quarter_body m q x2) in *.
  pose proof (quarter_body_adds m q x3 Hm Hq ltac:(lra)) as H4.
  unfold m in *. lra.
Qed.

(** From any non-negative capital, the years from [a] to [b - 1], all at
    or after the start age [ps] of the pension, add at least twelve
    monthly amounts each. *)
Lemma capital_adds_payments (amt : R) (ps : Z) (c : R) (a b : Z) :
  0 <= annual_return_rate -> 0 <= pension_increase_rate -> 0 <= amt ->
  pension_source pension_type early_amt base_amt early_start regular_start
  = (amt, ps) ->
  0 <= c -> (ps <= a)%Z -> (a <= b)%Z ->
  c + amt * 12 * IZR (b - a) <= capital c (Py.range a b).
Proof.
  intros Hr Hinc Hamt Hsrc Hc Hpa Hab.
  remember (Z.to_nat (b - a)) as n eqn:Hn.
  revert b Hab Hn. induction n as [|n IH]; intros b Hab Hn.
  - replace b with a by lia. rewrite PyFacts.range_nil, Z.sub_diag by lia.
    unfold capital, compound_capital. cbn [fold_left]. lra.
  - rewrite capital_last by lia.
    pose proof (IH (b - 1)%Z ltac:(lia) ltac:(lia)) as Hprev.
    assert (0 <= IZR (b - 1 - a)) as Hcount by (apply IZR_le; lia).
    assert (amt * 12 <= income (b - 1)) as Hinc12.
    { unfold income.
      rewrite (income_of_source early_amt base_amt pension_increase_rate
                 pension_type regular_start early_start amt ps (b - 1) Hsrc).
      rewrite annual_pension_from_start by lia.
      assert (1 <= (1 + pension_increase_rate) ^ Z.to_nat (b - 1 - ps))
        by (apply pow_R1_Rle; lra).
      nra. }
    assert (0 <= capital c (Py.range a (b - 1))) as Hnonneg by nra.
    pose proof (year_adds_income (capital c (Py.range a (b - 1))) (b - 1)
                  Hr ltac:(nra) Hnonneg) as Hyear.
    replace (b - a)%Z with (b - 1 - a + 1)%Z by lia.
    rewrite plus_IZR. nra.
Qed.

End SimulationYears.

Lemma annual_pension_mono_amount (amt amt' : R) (s a : Z) (r : R) :
  (0 <= r)%R -> (amt <= amt')%R ->
  (calculate_annual_pension_with_increase_rate amt s a r
   <= calculate_annual_pension_with_increase_rate amt' s a r)%R.
Proof.
  intros Hr Hamt. destruct (Z.lt_ge_cases a s) as [Hlt|Hge].
  - rewrite !annual_pension_before_start by exact Hlt. lra.
  - rewrite !annual_pension_from_start by exact Hge.
    assert (0 <= (1 + r) ^ Z.to_nat (a - s))%R by (apply pow_le; lra).
    nra.
Qed.

Lemma quarter_body_mono (m m' q c c' : R) :
  (0 <= 1 + q)%R -> (m <= m')%R -> (c <= c')%R ->
  (quarter_body m q c <= quarter_body m' q c')%R.
Proof.
  intros Hq Hm Hc. unfold quarter_body.
  apply Rmult_le_compat_r; lra.
Qed.

Lemma compound_capital_mono
    (early_amt early_amt' base_amt base_amt' : R)
    (annual_return_rate pension_increase_rate : R) (pension_type : string)
    (regular_start early_start : Z) (ages : list Z) (c c' : R) :
  (0 <= pension_increase_rate)%R ->
  (early_amt <= early_amt')%R -> (base_amt <= base_amt')%R ->
  (c <= c')%R ->
  (compound_capital early_amt base_amt annual_return_rate
     pension_increase_rate pension_type regular_start early_start c ages
   <= compound_capital early_amt' base_amt' annual_return_rate
        pension_increase_rate pension_type regular_start early_start c'
        ages)%R.
Proof.
  intros Hinc Hearly Hbase. revert c c'.
  induction ages as [|age rest IH]; intros c c' Hc; [exact Hc|].
  unfold compound_capital. cbn [fold_left]. apply IH.
  unfold year_capital. cbv zeta.
  pose proof (quarterly_growth_pos annual_return_rate) as Hq.
  assert (annual_pension_income_for_current_year early_amt base_amt
            pension_increase_rate pension_type regular_start early_start
            age / 12
          <= annual_pension_income_for_current_year early_amt' base_amt'
               pension_increase_rate pension_type regular_start early_start
               age / 12)%R as Hm.
  { unfold annual_pension_income_for_current_year.
    destruct (String.eqb pension_type "early").
    - pose proof (annual_pension_mono_amount early_amt early_amt'
                    early_start age pension_increase_rate Hinc Hearly).
      lra.
    - pose proof (annual_pension_mono_amount base_amt base_amt'
                    regular_start age pension_increase_rate Hinc Hbase).
      lra. }
  cbn [Nat.iter nat_rect].
  repeat (apply quarter_body_mono; [lra|exact Hm|]).
  exact Hc.
Qed.

(** X5.  A larger pension never leaves less: with a non-negative increase
    rate, raising the initial capital or either monthly amount, all else
    equal, never lowers the assets recorded at any age. *)
Theorem recorded_assets_monotone_in_amounts
    (initial_capital initial_capital' : R)
    (early_amt early_amt' base_amt base_amt' : R)
    (annual_return_rate : R) (s e : Z) (pension_increase_rate : R)
    (pension_type : string) (regular_start early_start age : Z) :
  (0 <= pension_increase_rate)%R ->
  (initial_capital <= initial_capital')%R ->
  (early_amt <= early_amt')%R -> (base_amt <= base_amt')%R ->
  s <= age <= e ->
  exists v v' : Z,
    assets_at
      (simulate_investment initial_capital early_amt base_amt
         annual_return_rate s e pension_increase_rate pension_type
         regular_start early_start) age = Some v
    /\ assets_at
         (simulate_investment initial_capital' early_amt' base_amt'
            annual_return_rate s e pension_increase_rate pension_type
            regular_start early_start) age = Some v'
    /\ v <= v'.
Proof.
  intros Hinc Hc Hearly Hbase Hage.
  rewrite !assets_at_simulated by exact Hage.
  eexists. eexists. split; [reflexivity|]. split; [reflexivity|].
  apply PyFacts.round_le. now apply compound_capital_mono.
Qed.

Lemma recorded_assets_monotone_in_amounts_witness :
  (0 <= 0.034)%R /\ (0 <= 0)%R /\ (700000 <= 940000)%R
  /\ (1000000 <= 1000000)%R /\ 60 <= 70 <= 80
  /\ exists v v' : Z,
       assets_at
         (simulate_investment 0 700000 1000000 0.05 60 80 0.034 "early"
            65 60) 70 = Some v
       /\ assets_at
            (simulate_investment 0 940000 1000000 0.05 60 80 0.034 "early"
               65 60) 70 = Some v'
       /\ v <= v'.
Proof.
  split; [lra|]. split; [lra|]. split; [lra|]. split; [lra|].
  split; [lia|].
  apply (recorded_assets_monotone_in_amounts
           0 0 700000 940000 1000000 1000000 0.05 60 80 0.034 "early"
           65 60 70);
    [lra|lra|lra|lra|lia].
Defined.

(** X6.  A simulation with initial capital 0 that starts before the start
    age [ps] of its pension records 0 at every age below [ps], and from
    [ps] on it records what the simulation started at [ps] records: the
    early start only pads the frame with zeros. *)
Theorem simulation_before_pension_start_is_zero_padded
    (early_amt base_amt annual_return_rate : R) (s e : Z)
    (pension_increase_rate : R) (pension_type : string)
    (regular_start early_start : Z) (amt : R) (ps age : Z) :
  pension_source pension_type early_amt base_amt early_start regular_start
  = (amt, ps) ->
  s <= ps -> s <= age <= e ->
  (age < ps ->
   assets_at
     (simulate_investment 0 early_amt base_amt annual_return_rate s e
        pension_increase_rate pension_type regular_start early_start) age
   = Some 0)
  /\ (ps <= age ->
      assets_at
        (simulate_investment 0 early_amt base_amt annual_return_rate s e
           pension_increase_rate pension_type regular_start early_start) age
      = assets_at
          (simulate_investment 0 early_amt base_amt annual_return_rate ps e
             pension_increase_rate pension_type regular_start early_start)
          age).
Proof.
  intros Hsrc Hsps Hage.
  assert (forall b, b <= ps ->
            compound_capital early_amt base_amt annual_return_rate
              pension_increase_rate pension_type regular_start early_start
              0 (Py.range s b) = 0%R) as Hzero.
  { intros b Hb. apply capital_of_nothing. intros a Ha.
    rewrite (income_of_source early_amt base_amt pension_increase_rate
               pension_type regular_start early_start amt ps a Hsrc).
    apply annual_pension_before_start. lia. }
  split.
  - intros Hbefore. rewrite assets_at_simulated by exact Hage.
    rewrite Hzero by lia. now rewrite PyFacts.round_IZR.
  - intros Hfrom. rewrite !assets_at_simulated by lia.
    rewrite (PyFacts.range_split s ps (age + 1)) by lia.
    rewrite capital_app, Hzero by lia. reflexivity.
Qed.

Lemma simulation_before_pension_start_is_zero_padded_witness :
  pension_source "regular" 700000 1000000 60 65 = (1000000%R, 65)
  /\ 60 <= 65 /\ 60 <= 62 <= 80
  /\ (62 < 65 ->
      assets_at
        (simulate_investment 0 700000 1000000 0.05 60 80 0.034 "regular"
           65 60) 62 = Some 0).
Proof.
  split; [reflexivity|]. split; [lia|]. split; [lia|].
  apply (simulation_before_pension_start_is_zero_padded
           700000 1000000 0.05 60 80 0.034 "regular" 65 60 1000000 65 62);
    [reflexivity|lia|lia].
Defined.

(** X7.  The returned frame has one row per age from the investment start
    age to the investment end age, in increasing order, and it is empty
    exactly when the end age is below the start age. *)
Theorem simulate_investment_frame_shape
    (initial_capital early_amt base_amt annual_return_rate : R) (s e : Z)
    (pension_increase_rate : R) (pension_type : string)
    (regular_start early_start : Z) :
  let frame :=
    simulate_investment initial_capital early_amt base_amt
      annual_return_rate s e pension_increase_rate pension_type
      regular_start early_start in
  map row_age frame = Py.range s (e + 1)
  /\ List.length frame = Z.to_nat (e - s + 1)
  /\ (frame = [] <-> e < s).
Proof.
  cbv zeta. split; [apply simulate_investment_ages|]. split.
  - rewrite <- (length_map row_age), simulate_investment_ages.
    unfold Py.range. rewrite length_map, length_seq. lia.
  - split.
    + intros Hnil. destruct (Z.lt_ge_cases e s) as [Hlt|Hge]; [exact Hlt|].
      exfalso. revert Hnil. apply simulated_nonempty. lia.
    + intros Hlt. rewrite simulate_investment_eq.
      now rewrite PyFacts.range_nil by lia.
Qed.

(** X8.  With non-negative return and increase rates and a non-negative
    whole monthly amount, the assets recorded at age [A] are at least the
    payments received so far, [amount * 12 * (A - s + 1)]. *)
Theorem recorded_assets_cover_payments
    (early_amt base_amt annual_return_rate : R) (s e : Z)
    (pension_increase_rate : R) (pension_type : string)
    (regular_start early_start age amount : Z) :
  (0 <= annual_return_rate)%R -> (0 <= pension_increase_rate)%R ->
  0 <= amount ->
  pension_source pension_type early_amt base_amt early_start regular_start
  = (IZR amount, s) ->
  s <= age <= e ->
  exists recorded : Z,
    assets_at
      (simulate_investment 0 early_amt base_amt annual_return_rate s e
         pension_increase_rate pension_type regular_start early_start) age
    = Some recorded
    /\ amount * 12 * (age - s + 1) <= recorded.
Proof.
  intros Hr Hinc Hamt Hsrc Hage.
  rewrite assets_at_simulated by exact Hage.
  eexists. split; [reflexivity|].
  rewrite <- (PyFacts.round_IZR (amount * 12 * (age - s + 1))).
  apply PyFacts.round_le.
  pose proof (capital_adds_payments early_amt base_amt annual_return_rate
                pension_increase_rate pension_type regular_start early_start
                (IZR amount) s 0 s (age + 1) Hr Hinc
                ltac:(now apply IZR_le) Hsrc ltac:(lra) ltac:(lia)
                ltac:(lia)) as Hcap.
  rewrite !mult_IZR.
  replace (age - s + 1) with (age + 1 - s) by lia. lra.
Qed.

Lemma recorded_assets_cover_payments_witness :
  (0 <= 0.05)%R /\ (0 <= 0.034)%R /\ 0 <= 1000000
  /\ pension_source "regular" 700000 1000000 60 65 = (IZR 1000000, 65)
  /\ 65 <= 70 <= 80
  /\ exists recorded : Z,
       assets_at
         (simulate_investment 0 700000 1000000 0.05 65 80 0.034 "regular"
            65 60) 70 = Some recorded
       /\ 1000000 * 12 * (70 - 65 + 1) <= recorded.
Proof.
  split; [lra|]. split; [lra|]. split; [lia|]. split; [reflexivity|].
  split; [lia|].
  apply (recorded_assets_cover_payments
           700000 1000000 0.05 65 80 0.034 "regular" 65 60 70 1000000);
    [lra|lra|lia|reflexivity|lia].
Defined.

(** X9.  With non-negative return and increase rates and a monthly amount
    whose twelve payments exceed one currency unit, the recorded assets
    strictly increase from one age to any later one. *)
Theorem recorded_assets_strictly_increasing
    (early_amt base_amt annual_return_rate : R) (s e : Z)
    (pension_increase_rate : R) (pension_type : string)
    (regular_start early_start a b : Z) (amt : R) :
  (0 <= annual_return_rate)%R -> (0 <= pension_increase_rate)%R ->
  (1 < amt * 12)%R ->
  pension_source pension_type early_amt base_amt early_start regular_start
  = (amt, s) ->
  s <= a -> a < b -> b <= e ->
  exists va vb : Z,
    assets_at
      (simulate_investment 0 early_amt base_amt annual_return_rate s e
         pension_increase_rate pension_type regular_start early_start) a
    = Some va
    /\ assets_at
         (simulate_investment 0 early_amt base_amt annual_return_rate s e
            pension_increase_rate pension_type regular_start early_start) b
       = Some vb
    /\ va < vb.
Proof.
  intros Hr Hinc Hamt Hsrc Hsa Hab Hbe.
  rewrite !assets_at_simulated by lia.
  eexists. eexists. split; [reflexivity|]. split; [reflexivity|].
  apply round_lt_of_gap.
  rewrite (PyFacts.range_split s (a + 1) (b + 1)) by lia.
  rewrite capital_app.
  pose proof (capital_adds_payments early_amt base_amt annual_return_rate
                pension_increase_rate pension_type regular_start early_start
                amt s 0 s (a + 1) Hr Hinc ltac:(lra) Hsrc ltac:(lra)
                ltac:(lia) ltac:(lia)) as Hfirst.
  assert (0 <= IZR (a + 1 - s))%R as Hn1 by (apply IZR_le; lia).
  set (cap_a :=
         compound_capital early_amt base_amt annual_return_rate
           pension_increase_rate pension_type regular_start early_start 0
           (Py.range s (a + 1))) in *.
  assert (0 <= cap_a)%R as Hnonneg by nra.
  pose proof (capital_adds_payments early_amt base_amt annual_return_rate
                pension_increase_rate pension_type regular_start early_start
                amt s cap_a (a + 1) (b + 1) Hr Hinc ltac:(lra) Hsrc Hnonneg
                ltac:(lia) ltac:(lia)) as Hnext.
  assert (1 <= IZR (b + 1 - (a + 1)))%R as Hn2 by (apply IZR_le; lia).
  nra.
Qed.

Lemma recorded_assets_strictly_increasing_witness :
  (0 <= 0.05)%R /\ (0 <= 0.034)%R /\ (1 < 700000 * 12)%R
  /\ pension_source "early" 700000 1000000 60 65 = (700000%R, 60)
  /\ 60 <= 61 /\ 61 < 70 /\ 70 <= 80
  /\ exists va vb : Z,
       assets_at
         (simulate_investment 0 700000 1000000 0.05 60 80 0.034 "early"
            65 60) 61 = Some va
       /\ assets_at
            (simulate_investment 0 700000 1000000 0.05 60 80 0.034 "early"
               65 60) 70 = Some vb
       /\ va < vb.
Proof.
  split; [lra|]. split; [lra|]. split; [lra|]. split; [reflexivity|].
  split; [lia|]. split; [lia|]. split; [lia|].
  apply (recorded_assets_strictly_increasing
           700000 1000000 0.05 60 80 0.034 "early" 65 60 61 70 700000);
    [lra|lra|lra|reflexivity|lia|lia|lia].
Defined.

(** ** The early strategy as a scaled, shifted regular strategy *)

(** A pension of [k * amt] started at [s1] and one of [amt] started at
    [s2] compound in step: after the same number of years of payout the
    first capital is [k] times the second. *)
Lemma capital_scales_and_shifts
    (k amt annual_return_rate pension_increase_rate : R)
    (early_amt1 base_amt1 : R) (pension_type1 : string)
    (regular_start1 early_start1 s1 : Z)
    (early_amt2 base_amt2 : R) (pension_type2 : string)
    (regular_start2 early_start2 s2 : Z) (c : R) (n : nat) :
  pension_source pension_type1 early_amt1 base_amt1 early_start1
    regular_start1 = ((k * amt)%R, s1) ->
  pension_source pension_type2 early_amt2 base_amt2 early_start2
    regular_start2 = (amt, s2) ->
  compound_capital early_amt1 base_amt1 annual_return_rate
    pension_increase_rate pension_type1 regular_start1 early_start1
    (k * c) (Py.range s1 (s1 + Z.of_nat n))
  = (k * compound_capital early_amt2 base_amt2 annual_return_rate
           pension_increase_rate pension_type2 regular_start2 early_start2
           c (Py.range s2 (s2 + Z.of_nat n)))%R.
Proof.
  intros Hsrc1 Hsrc2. induction n as [|n IH].
  - rewrite !PyFacts.range_nil by lia. reflexivity.
  - replace (s1 + Z.of_nat (S n)) with (s1 + Z.of_nat n + 1) by lia.
    replace (s2 + Z.of_nat (S n)) with (s2 + Z.of_nat n + 1) by lia.
    rewrite !PyFacts.range_snoc by lia.
    rewrite !capital_snoc, IH.
    unfold year_capital. cbv zeta.
    rewrite (income_of_source early_amt1 base_amt1 pension_increase_rate
               pension_type1 regular_start1 early_start1 (k * amt)%R s1
               (s1 + Z.of_nat n) Hsrc1).
    rewrite (income_of_source early_amt2 base_amt2 pension_increase_rate
               pension_type2 regular_start2 early_start2 amt s2
               (s2 + Z.of_nat n) Hsrc2).
    rewrite !annual_pension_from_start by lia.
    replace (Z.to_nat (s1 + Z.of_nat n - s1)) with n by lia.
    replace (Z.to_nat (s2 + Z.of_nat n - s2)) with n by lia.
    cbn [Nat.iter nat_rect]. unfold quarter_body. field.
Qed.

Lemma early_capital_scaled (reg base years : Z) (ret inc : R) (age : Z) :
  early_pension_start_age reg years <= age ->
  compound_capital (early_monthly_pension_at_start base years) (IZR base)
    ret inc "early" reg (early_pension_start_age reg years) 0
    (Py.range (early_pension_start_age reg years) (age + 1))
  = (early_pension_reduction_rate years
     * compound_capital (early_monthly_pension_at_start base years)
         (IZR base) ret inc "regular" reg
         (early_pension_start_age reg years) 0
         (Py.range reg (age + years + 1)))%R.
Proof.
  intros Hage.
  set (es := early_pension_start_age reg years) in *.
  set (amt1 := early_monthly_pension_at_start base years).
  set (k := early_pension_reduction_rate years).
  pose proof (capital_scales_and_shifts k (IZR base) ret inc
                amt1 (IZR base) "early" reg es es
                amt1 (IZR base) "regular" reg es reg 0
                (Z.to_nat (age + 1 - es))) as H.
  replace (es + Z.of_nat (Z.to_nat (age + 1 - es))) with (age + 1)
    in H by lia.
  replace (reg + Z.of_nat (Z.to_nat (age + 1 - es)))
    with (age + years + 1) in H
    by (unfold es, early_pension_start_age in *; lia).
  rewrite Rmult_0_r in H. apply H.
  - unfold pension_source. cbn [String.eqb Ascii.eqb Bool.eqb].
    f_equal. unfold amt1, k, early_monthly_pension_at_start. ring.
  - reflexivity.
Qed.

(** X10.  For zero to five early years the early frame is the regular
    frame taken [years] later and scaled by the reduction rate, up to the
    rounding of the records: the value the early frame records at age [A]
    is less than one currency unit away from the reduction rate times the
    value the regular frame records at age [A + years]. *)
Theorem early_frame_is_scaled_regular_frame
    (reg base years e : Z) (ret inc : R) (age : Z) :
  0 <= years <= 5 ->
  early_pension_start_age reg years <= age -> age + years <= e ->
  exists ve vr : Z,
    assets_at (early_pension_df reg base years e ret inc) age = Some ve
    /\ assets_at (regular_pension_df reg base years e ret inc) (age + years)
       = Some vr
    /\ (Rabs (IZR ve - early_pension_reduction_rate years * IZR vr) < 1)%R.
Proof.
  intros Hy Hage Hend.
  assert (early_pension_start_age reg years = reg - years) as Hes
    by reflexivity.
  unfold early_pension_df, regular_pension_df.
  rewrite !assets_at_simulated by lia.
  eexists. eexists. split; [reflexivity|]. split; [reflexivity|].
  rewrite (early_capital_scaled reg base years ret inc age Hage).
  set (k := early_pension_reduction_rate years).
  set (C := compound_capital (early_monthly_pension_at_start base years)
              (IZR base) ret inc "regular" reg
              (early_pension_start_age reg years) 0
              (Py.range reg (age + years + 1))).
  pose proof (round_within_half C) as HC.
  destruct (Z.eq_dec years 0) as [Hzero|Hpos].
  - assert (k = 1%R) as Hk.
    { unfold k. rewrite Hzero. apply reduction_rate_without_early_years. }
    rewrite Hk, Rmult_1_l, Rmult_1_l.
    unfold Rminus. rewrite Rplus_opp_r, Rabs_R0. lra.
  - pose proof (round_within_half (k * C)) as HkC.
    assert (0.7 <= k <= 0.94)%R as Hk.
    { destruct Hy as [Hy0 Hy5].
      assert (1 <= years) as Hy1 by lia.
      apply IZR_le in Hy1, Hy5.
      unfold k, early_pension_reduction_rate,
        calculate_early_pension_reduction_rate. lra. }
    apply Rabs_def1; nra.
Qed.

Lemma early_frame_is_scaled_regular_frame_witness :
  0 <= 3 <= 5 /\ early_pension_start_age 65 3 <= 63 /\ 63 + 3 <= 66
  /\ exists ve vr : Z,
       assets_at (early_pension_df 65 312500 3 66 0 0.1) 63 = Some ve
       /\ assets_at (regular_pension_df 65 312500 3 66 0 0.1) (63 + 3)
          = Some vr
       /\ (Rabs (IZR ve - early_pension_reduction_rate 3 * IZR vr) < 1)%R.
Proof.
  split; [lia|]. split; [unfold early_pension_start_age; lia|].
  split; [lia|].
  apply (early_frame_is_scaled_regular_frame 65 312500 3 66 0 0.1 63);
    [lia|unfold early_pension_start_age; lia|lia].
Defined.

(** ** The highlighted rows and the crossover marker *)

Lemma highlight_red_iff (row : merged_row) :
  highlight_crossover row = repeat "color: red"%string 4
  <-> cell_le0 (m_delta row) = true.
Proof.
  unfold highlight_crossover.
  destruct (cell_le0 (m_delta row)); split; intros H;
    try reflexivity; discriminate.
Qed.

Lemma highlight_plain_iff (row : merged_row) :
  highlight_crossover row = repeat ""%string 4
  <-> cell_le0 (m_delta row) = false.
Proof.
  unfold highlight_crossover.
  destruct (cell_le0 (m_delta row)); split; intros H;
    try reflexivity; discriminate.
Qed.

Lemma cell_some_not_le0 (c : option Z) :
  c <> None -> cell_le0 c = false -> cell_gt0 c = true.
Proof.
  destruct c as [v|]; [|congruence]. intros _. cbn [cell_le0 cell_gt0].
  rewrite Z.leb_gt. intros H. now apply Z.ltb_lt.
Qed.

Lemma cell_gt0_excludes (c : option Z) :
  cell_gt0 c = true -> cell_le0 c = false /\ cell_lt0 c = false.
Proof.
  destruct c as [v|]; [|discriminate]. cbn [cell_gt0 cell_le0 cell_lt0].
  rewrite Z.ltb_lt. intros H. split; [apply Z.leb_gt|apply Z.ltb_ge]; lia.
Qed.

Section Lead.

Variable merged : list merged_row.

(** No cell of the delta column is missing, and the first row is not
    highlighted: the early strategy leads at the first age. *)
Hypothesis no_missing_delta :
  forall row, In row merged -> m_delta row <> None.
Hypothesis first_row_plain :
  cell_le0 (m_delta (iloc merged 0)) = false.

Lemma in_frame (i : nat) :
  (i < List.length merged)%nat -> In (iloc merged i) merged.
Proof. intros Hi. unfold iloc. now apply nth_In. Qed.

Lemma plain_row_leads (i : nat) :
  (i < List.length merged)%nat ->
  cell_le0 (m_delta (iloc merged i)) = false ->
  cell_gt0 (m_delta (iloc merged i)) = true.
Proof.
  intros Hi Hplain. apply cell_some_not_le0; [|exact Hplain].
  apply no_missing_delta. now apply in_frame.
Qed.

Lemma no_crossing_keeps_lead (k : nat) :
  (k < List.length merged)%nat ->
  (forall j, (1 <= j <= k)%nat -> crossing_test merged j = false) ->
  cell_gt0 (m_delta (iloc merged k)) = true.
Proof.
  induction k as [|k IH]; intros Hk Hnone.
  - now apply plain_row_leads.
  - apply plain_row_leads; [exact Hk|].
    assert (cell_gt0 (m_delta (iloc merged k)) = true) as Hprev.
    { apply IH; [lia|]. intros j Hj. apply Hnone. lia. }
    pose proof (Hnone (S k) ltac:(lia)) as Htest.
    unfold crossing_test, falls_at in Htest.
    replace (S k - 1)%nat with k in Htest by lia.
    rewrite Hprev in Htest. cbn [andb] in Htest.
    now apply orb_false_iff in Htest as [Hfall _].
Qed.

Lemma plain_rows_do_not_cross (i : nat) :
  (i < List.length merged)%nat ->
  (forall j, (j <= i)%nat -> cell_le0 (m_delta (iloc merged j)) = false) ->
  forall j, (1 <= j <= i)%nat -> crossing_test merged j = false.
Proof.
  intros Hi Hplain j Hj. unfold crossing_test, falls_at, rises_at.
  rewrite (Hplain j) by lia.
  assert (cell_gt0 (m_delta (iloc merged (j - 1))) = true) as Hprev.
  { apply plain_row_leads; [lia|]. apply Hplain. lia. }
  apply cell_gt0_excludes in Hprev as [_ ->].
  now rewrite andb_false_r.
Qed.

Lemma first_crossing_is_first_red (i : nat) :
  (1 <= i < List.length merged)%nat ->
  (crossing_test merged i = true
   /\ forall j, (1 <= j < i)%nat -> crossing_test merged j = false)
  <-> (cell_le0 (m_delta (iloc merged i)) = true
       /\ forall j, (j < i)%nat ->
            cell_le0 (m_delta (iloc merged j)) = false).
Proof.
  intros Hi. split.
  - intros [Hcross Hfirst].
    assert (forall j, (j < i)%nat ->
              cell_gt0 (m_delta (iloc merged j)) = true) as Hlead.
    { intros j Hj. apply no_crossing_keeps_lead; [lia|].
      intros j' Hj'. apply Hfirst. lia. }
    split.
    + unfold crossing_test, falls_at, rises_at in Hcross.
      destruct (cell_gt0_excludes _ (Hlead (i - 1)%nat ltac:(lia)))
        as [_ Hnotneg].
      rewrite Hnotneg in Hcross. cbn [andb] in Hcross.
      rewrite orb_false_r in Hcross.
      now apply andb_true_iff in Hcross as [_ Hle].
    + intros j Hj. now destruct (cell_gt0_excludes _ (Hlead j Hj)).
  - intros [Hred Hplain]. split.
    + unfold crossing_test, falls_at. rewrite Hred.
      rewrite plain_row_leads; [reflexivity|lia|apply Hplain; lia].
    + intros j Hj.
      apply (plain_rows_do_not_cross (i - 1)); [lia| |lia].
      intros j' Hj'. apply Hplain. lia.
Qed.

Lemma crossover_is_first_red (age : Z) :
  crossover_age merged = Some age
  <-> exists i : nat,
        (i < List.length merged)%nat
        /\ cell_le0 (m_delta (iloc merged i)) = true
        /\ (forall j, (j < i)%nat ->
              cell_le0 (m_delta (iloc merged j)) = false)
        /\ m_age (iloc merged i) = age.
Proof.
  unfold crossover_age. rewrite scan_seq_some. split.
  - intros (i & Hi & Hcross & Hfirst & Hage). exists i.
    split; [lia|].
    destruct (proj1 (first_crossing_is_first_red i ltac:(lia)))
      as [Hred Hplain].
    { split; [exact Hcross|]. intros j Hj. apply Hfirst. lia. }
    split; [exact Hred|]. split; [exact Hplain|exact Hage].
  - intros (i & Hi & Hred & Hplain & Hage).
    assert (i <> 0)%nat as Hpos.
    { intros ->. rewrite first_row_plain in Hred. discriminate. }
    exists i. split; [lia|].
    destruct (proj2 (first_crossing_is_first_red i ltac:(lia)))
      as [Hcross Hfirst]; [now split|].
    split; [exact Hcross|]. split; [|exact Hage].
    intros j Hj. apply Hfirst. lia.
Qed.

Lemma no_crossover_iff_no_red :
  crossover_age merged = None
  <-> forall i : nat, (i < List.length merged)%nat ->
        cell_le0 (m_delta (iloc merged i)) = false.
Proof.
  destruct (crossover_age merged) as [age|] eqn:Hc.
  - apply crossover_is_first_red in Hc as (i & Hi & Hred & _).
    split; [discriminate|]. intros H. rewrite H in Hred by exact Hi.
    discriminate.
  - split; [|reflexivity]. intros _.
    unfold crossover_age in Hc. rewrite scan_seq_none in Hc.
    intros i. induction i as [i IH] using lt_wf_ind. intros Hi.
    destruct i as [|i]; [exact first_row_plain|].
    assert (cell_gt0 (m_delta (iloc merged i)) = true) as Hprev.
    { apply plain_row_leads; [lia|]. apply IH; lia. }
    pose proof (Hc (S i) ltac:(lia)) as Htest.
    unfold crossing_test, falls_at in Htest.
    replace (S i - 1)%nat with i in Htest by lia.
    rewrite Hprev in Htest. cbn [andb] in Htest.
    now apply orb_false_iff in Htest as [Hfall _].
Qed.

End Lead.

(** X11.  In a table with no missing delta whose first row is not
    highlighted, the crossover age is the age of the first highlighted
    row, and no crossover is reported exactly when no row is
    highlighted. *)
Theorem crossover_is_first_highlighted_row (merged : list merged_row) :
  (forall row, In row merged -> m_delta row <> None) ->
  highlight_crossover (iloc merged 0) = repeat ""%string 4 ->
  (forall age : Z,
     crossover_age merged = Some age
     <-> exists i : nat,
           (i < List.length merged)%nat
           /\ highlight_crossover (iloc merged i)
              = repeat "color: red"%string 4
           /\ (forall j, (j < i)%nat ->
                 highlight_crossover (iloc merged j) = repeat ""%string 4)
           /\ m_age (iloc merged i) = age)
  /\ (crossover_age merged = None
      <-> forall i : nat, (i < List.length merged)%nat ->
            highlight_crossover (iloc merged i) = repeat ""%string 4).
Proof.
  intros Hsome Hfirst. apply highlight_plain_iff in Hfirst. split.
  - intros age. rewrite (crossover_is_first_red merged Hsome Hfirst). split.
    + intros (i & Hi & Hred & Hplain & Hage). exists i.
      split; [exact Hi|]. split; [now apply highlight_red_iff|].
      split; [|exact Hage].
      intros j Hj. apply highlight_plain_iff. now apply Hplain.
    + intros (i & Hi & Hred & Hplain & Hage). exists i.
      split; [exact Hi|]. split; [now apply highlight_red_iff|].
      split; [|exact Hage].
      intros j Hj. apply highlight_plain_iff. now apply Hplain.
  - rewrite (no_crossover_iff_no_red merged Hsome Hfirst). split.
    + intros H i Hi. apply highlight_plain_iff. now apply H.
    + intros H i Hi. apply highlight_plain_iff. now apply H.
Qed.

Lemma crossover_is_first_highlighted_row_witness :
  crossover_age (frame_of_deltas [60; 61; 62; 63] [4; 1; 0; 7]) = Some 62
  <-> exists i : nat,
        (i < List.length
               (frame_of_deltas [60; 61; 62; 63] [4; 1; 0; 7])%Z)%nat
        /\ highlight_crossover
             (iloc (frame_of_deltas [60; 61; 62; 63] [4; 1; 0; 7]) i)
           = repeat "color: red"%string 4
        /\ (forall j, (j < i)%nat ->
              highlight_crossover
                (iloc (frame_of_deltas [60; 61; 62; 63] [4; 1; 0; 7]) j)
              = repeat ""%string 4)
        /\ m_age (iloc (frame_of_deltas [60; 61; 62; 63] [4; 1; 0; 7]) i)
           = 62.
Proof.
  apply (crossover_is_first_highlighted_row
           (frame_of_deltas [60; 61; 62; 63] [4; 1; 0; 7])).
  - intros row Hrow. cbn in Hrow.
    destruct Hrow as [<-|[<-|[<-|[<-|[]]]]]; discriminate.
  - reflexivity.
Defined.

(** ** The table of the script, row by row *)

Lemma range_nth (f : Z -> merged_row) (s b : Z) (i : nat) (d : merged_row) :
  (i < Z.to_nat (b - s))%nat ->
  nth i (map f (Py.range s b)) d = f (s + Z.of_nat i).
Proof.
  intros Hi. unfold Py.range. rewrite map_map.
  rewrite nth_indep with (d' := f (s + Z.of_nat 0))
    by now rewrite length_map, length_seq.
  rewrite (map_nth (fun k => f (s + Z.of_nat k))), seq_nth by exact Hi.
  reflexivity.
Qed.

Section ScriptRows.

Variables reg base years e : Z.
Variables ret inc : R.

Let es : Z := early_pension_start_age reg years.
Let early_df : list asset_row := early_pension_df reg base years e ret inc.
Let regular_df : list asset_row :=
  regular_pension_df reg base years e ret inc.
Let row_of (a : Z) : merged_row :=
  with_delta (a, assets_at early_df a, assets_at regular_df a).
Let rows : list merged_row := map row_of (Py.range es (e + 1)).

Lemma rows_length : List.length rows = Z.to_nat (e + 1 - es).
Proof.
  unfold rows, Py.range. now rewrite !length_map, length_seq.
Qed.

Lemma rows_iloc (i : nat) :
  (i < Z.to_nat (e + 1 - es))%nat ->
  iloc rows i = row_of (es + Z.of_nat i).
Proof. intros Hi. unfold iloc, rows. now apply range_nth. Qed.

Lemma rows_age (a : Z) : m_age (row_of a) = a.
Proof. reflexivity. Qed.

Lemma early_cell (a : Z) :
  es <= a <= e -> exists v : Z, assets_at early_df a = Some v.
Proof.
  intros Ha. unfold early_df, early_pension_df. fold es.
  rewrite assets_at_simulated by exact Ha. eexists. reflexivity.
Qed.

Lemma regular_cell_missing (a : Z) :
  a < reg -> assets_at regular_df a = None.
Proof.
  intros Ha. unfold regular_df, regular_pension_df.
  apply assets_at_not_simulated. lia.
Qed.

Lemma regular_cell (a : Z) :
  reg <= a <= e -> exists v : Z, assets_at regular_df a = Some v.
Proof.
  intros Ha. unfold regular_df, regular_pension_df.
  rewrite assets_at_simulated by exact Ha. eexists. reflexivity.
Qed.

Lemma rows_delta (a : Z) (v : Z) :
  assets_at early_df a = Some v ->
  m_delta (row_of a) = Some (v - fillna0 (assets_at regular_df a)).
Proof. intros Hv. unfold row_of, with_delta. now rewrite Hv. Qed.

Lemma rows_no_missing_delta (row : merged_row) :
  In row rows -> m_delta row <> None.
Proof.
  intros Hrow. apply in_map_iff in Hrow as [a [<- Ha]].
  apply PyFacts.in_range in Ha.
  destruct (early_cell a ltac:(lia)) as [v Hv].
  now rewrite (rows_delta a v Hv).
Qed.

(** The early frame records at least one currency unit at every age, for
    a base of at least one unit and at most five early years. *)
Lemma early_assets_positive (a : Z) :
  0 <= years <= 5 -> 1 <= base ->
  (0 <= ret)%R -> (0 <= inc)%R ->
  es <= a <= e ->
  exists v : Z, assets_at early_df a = Some v /\ 1 <= v.
Proof.
  intros [Hy0 Hy5] Hb Hr Hi Ha.
  unfold early_df, early_pension_df. fold es.
  rewrite assets_at_simulated by exact Ha.
  eexists. split; [reflexivity|].
  apply Z.le_trans with (Py.round (IZR 1));
    [rewrite PyFacts.round_IZR; lia|].
  apply PyFacts.round_le.
  assert (0.7 <= early_monthly_pension_at_start base years)%R as Hamt.
  { apply IZR_le in Hy0, Hy5, Hb.
    unfold early_monthly_pension_at_start, early_pension_reduction_rate,
      calculate_early_pension_reduction_rate. nra. }
  pose proof (capital_adds_payments
                (early_monthly_pension_at_start base years) (IZR base)
                ret inc "early" reg es
                (early_monthly_pension_at_start base years) es 0 es (a + 1)
                Hr Hi ltac:(lra) eq_refl ltac:(lra) ltac:(lia) ltac:(lia))
    as Hcap.
  assert (1 <= IZR (a + 1 - es))%R as Hn by (apply IZR_le; lia).
  assert (0.7 <= early_monthly_pension_at_start base years
                 * IZR (a + 1 - es))%R as Hprod by nra.
  lra.
Qed.

Lemma rows_before_regular_start_lead (a : Z) :
  0 <= years <= 5 -> 1 <= base ->
  (0 <= ret)%R -> (0 <= inc)%R ->
  es <= a <= e -> a < reg ->
  cell_le0 (m_delta (row_of a)) = false.
Proof.
  intros Hy Hb Hr Hi Ha Hbefore.
  destruct (early_assets_positive a Hy Hb Hr Hi Ha) as [v [Hv Hpos]].
  rewrite (rows_delta a v Hv), (regular_cell_missing a Hbefore).
  cbn [fillna0 cell_le0]. apply Z.leb_gt. lia.
Qed.

Lemma script_crossover_eq :
  0 <= years -> reg <= e ->
  script_crossover_age reg base years e ret inc = crossover_age rows.
Proof.
  intros Hy Hre. unfold script_crossover_age.
  now rewrite merged_df_rows by assumption.
Qed.

Lemma rows_first_plain :
  1 <= years <= 5 -> 1 <= base ->
  (0 <= ret)%R -> (0 <= inc)%R -> reg <= e ->
  cell_le0 (m_delta (iloc rows 0)) = false.
Proof.
  intros Hy Hb Hr Hi Hre.
  assert (es = reg - years) as Hes by reflexivity.
  rewrite rows_iloc by lia.
  apply rows_before_regular_start_lead; try assumption; lia.
Qed.

Lemma crossover_first_overtaking (age : Z) :
  1 <= years <= 5 -> 1 <= base ->
  (0 <= ret)%R -> (0 <= inc)%R -> reg <= e ->
  script_crossover_age reg base years e ret inc = Some age ->
  reg <= age <= e
  /\ (exists ve vr : Z,
        assets_at early_df age = Some ve
        /\ assets_at regular_df age = Some vr
        /\ ve <= vr)
  /\ (forall a : Z, es <= a < age ->
        exists ve : Z,
          assets_at early_df a = Some ve
          /\ fillna0 (assets_at regular_df a) < ve).
Proof.
  intros Hy Hb Hr Hi Hre Hcross.
  assert (es = reg - years) as Hes by reflexivity.
  rewrite script_crossover_eq in Hcross by lia.
  apply (crossover_is_first_red rows rows_no_missing_delta
           (rows_first_plain Hy Hb Hr Hi Hre)) in Hcross
    as (i & Hlen & Hred & Hplain & Hage).
  rewrite rows_length in Hlen.
  rewrite rows_iloc in Hred, Hage by exact Hlen.
  rewrite rows_age in Hage. subst age.
  assert (reg <= es + Z.of_nat i) as Hreached.
  { destruct (Z.lt_ge_cases (es + Z.of_nat i) reg) as [Hlt|Hge];
      [|exact Hge].
    exfalso.
    rewrite rows_before_regular_start_lead in Hred
      by (assumption || lia).
    discriminate. }
  split; [lia|]. split.
  - destruct (early_cell (es + Z.of_nat i) ltac:(lia)) as [ve Hve].
    destruct (regular_cell (es + Z.of_nat i) ltac:(lia)) as [vr Hvr].
    exists ve, vr. split; [exact Hve|]. split; [exact Hvr|].
    rewrite (rows_delta _ ve Hve), Hvr in Hred.
    cbn [fillna0 cell_le0] in Hred. apply Z.leb_le in Hred. lia.
  - intros a Ha.
    destruct (early_cell a ltac:(lia)) as [ve Hve].
    exists ve. split; [exact Hve|].
    pose proof (Hplain (Z.to_nat (a - es)) ltac:(lia)) as Hrow.
    rewrite rows_iloc in Hrow by lia.
    replace (es + Z.of_nat (Z.to_nat (a - es))) with a in Hrow by lia.
    rewrite (rows_delta a ve Hve) in Hrow.
    cbn [cell_le0] in Hrow. apply Z.leb_gt in Hrow. lia.
Qed.

Lemma crossover_never_at_first_age (age : Z) :
  0 <= years -> reg <= e ->
  script_crossover_age reg base years e ret inc = Some age ->
  es < age <= e.
Proof.
  intros Hy Hre Hcross.
  assert (es = reg - years) as Hes by reflexivity.
  rewrite script_crossover_eq in Hcross by lia.
  unfold crossover_age in Hcross.
  apply scan_seq_some in Hcross as (i & Hi & _ & _ & Hage).
  rewrite rows_length in Hi.
  rewrite rows_iloc, rows_age in Hage by lia. lia.
Qed.

Lemma selected_row_found (selected : Z) :
  es <= selected <= e ->
  selected_data_row rows selected = Some (row_of selected).
Proof.
  intros Hsel. unfold selected_data_row, rows.
  assert (forall ages : list Z,
            NoDup ages -> In selected ages ->
            filter (fun r => m_age r =? selected) (map row_of ages)
            = [row_of selected]) as Hfilter.
  { induction ages as [|a rest IH]; intros Hnd Hin; [contradiction|].
    apply NoDup_cons_iff in Hnd as [Hnotin Hnd].
    cbn [map filter]. rewrite rows_age.
    destruct (Z.eqb_spec a selected) as [->|Hne].
    - f_equal. clear IH Hin.
      induction rest as [|b rest IH]; [reflexivity|].
      apply NoDup_cons_iff in Hnd as [_ Hnd].
      cbn [map filter]. rewrite rows_age.
      destruct (Z.eqb_spec b selected) as [->|_].
      + exfalso. apply Hnotin. now left.
      + apply IH; [|exact Hnd]. intros Hin. apply Hnotin. now right.
    - apply IH; [exact Hnd|]. destruct Hin as [Heq|Hin]; [contradiction|].
      exact Hin. }
  rewrite Hfilter; [reflexivity|apply PyFacts.range_NoDup|].
  apply PyFacts.in_range. lia.
Qed.

Lemma crossover_from_first_overtaking (age : Z) :
  1 <= years <= 5 -> 1 <= base ->
  (0 <= ret)%R -> (0 <= inc)%R -> reg <= e ->
  es <= age <= e ->
  (exists ve : Z,
     assets_at early_df age = Some ve
     /\ ve <= fillna0 (assets_at regular_df age)) ->
  (forall a : Z, es <= a < age ->
     exists ve : Z,
       assets_at early_df a = Some ve
       /\ fillna0 (assets_at regular_df a) < ve) ->
  script_crossover_age reg base years e ret inc = Some age.
Proof.
  intros Hy Hb Hr Hi Hre Hage [ve [Hve Hle]] Hbefore.
  assert (es = reg - years) as Hes by reflexivity.
  rewrite script_crossover_eq by lia.
  apply (crossover_is_first_red rows rows_no_missing_delta
           (rows_first_plain Hy Hb Hr Hi Hre)).
  exists (Z.to_nat (age - es)).
  rewrite rows_length.
  split; [lia|].
  rewrite rows_iloc by lia.
  replace (es + Z.of_nat (Z.to_nat (age - es))) with age by lia.
  split; [|split; [|apply rows_age]].
  - rewrite (rows_delta age ve Hve). cbn [cell_le0]. apply Z.leb_le. lia.
  - intros j Hj. rewrite rows_iloc by lia.
    destruct (Hbefore (es + Z.of_nat j) ltac:(lia)) as [ve' [Hve' Hlt]].
    rewrite (rows_delta _ ve' Hve'). cbn [cell_le0]. apply Z.leb_gt. lia.
Qed.

End ScriptRows.

(** *** A run with a crossover: base 1000000, five early years, no return
    and no increase, up to age 80 *)

Lemma flat_run_early_assets (a : Z) :
  60 <= a <= 80 ->
  assets_at (early_pension_df 65 1000000 5 80 0 0) a
  = Some (8400000 * (a - 59)).
Proof.
  intros Ha. unfold early_pension_df.
  change (early_pension_start_age 65 5) with 60.
  rewrite (assets_at_zero_rates _ _ 60 80 "early" 65 60 a
             (early_monthly_pension_at_start 1000000 5))
    by (reflexivity || lia).
  f_equal. rewrite <- (PyFacts.round_IZR (8400000 * (a - 59))). f_equal.
  rewrite mult_IZR. replace (a - 60 + 1) with (a - 59) by lia.
  unfold early_monthly_pension_at_start, early_pension_reduction_rate,
    calculate_early_pension_reduction_rate. lra.
Qed.

Lemma flat_run_regular_assets (a : Z) :
  65 <= a <= 80 ->
  assets_at (regular_pension_df 65 1000000 5 80 0 0) a
  = Some (12000000 * (a - 64)).
Proof.
  intros Ha. unfold regular_pension_df.
  rewrite (assets_at_zero_rates _ _ 65 80 "regular" 65
             (early_pension_start_age 65 5) a 1000000)
    by (reflexivity || lia).
  f_equal. rewrite <- (PyFacts.round_IZR (12000000 * (a - 64))). f_equal.
  rewrite mult_IZR. replace (a - 65 + 1) with (a - 64) by lia. lra.
Qed.

Lemma flat_run_regular_missing (a : Z) :
  a < 65 -> assets_at (regular_pension_df 65 1000000 5 80 0 0) a = None.
Proof.
  intros Ha. unfold regular_pension_df. apply assets_at_not_simulated. lia.
Qed.

Lemma flat_run_crossover :
  script_crossover_age 65 1000000 5 80 0 0 = Some 76.
Proof.
  apply crossover_from_first_overtaking; try lia; try lra.
  - change (early_pension_start_age 65 5) with 60. lia.
  - exists (8400000 * (76 - 59)). split; [apply flat_run_early_assets; lia|].
    rewrite flat_run_regular_assets by lia. cbn [fillna0]. lia.
  - change (early_pension_start_age 65 5) with 60. intros a Ha.
    exists (8400000 * (a - 59)). split; [apply flat_run_early_assets; lia|].
    destruct (Z.lt_ge_cases a 65) as [Hlt|Hge].
    + rewrite flat_run_regular_missing by exact Hlt. cbn [fillna0]. lia.
    + rewrite flat_run_regular_assets by lia. cbn [fillna0]. lia.
Qed.

(** X12.  For one to five early years, a base of at least one currency
    unit and non-negative rates, the script reports the crossover age
    [age] exactly when [age] is the first age of the table at which the
    early assets are at most the regular assets (0 where the regular frame
    has no row); such an age is never below the regular start age. *)
Theorem reported_crossover_is_first_overtaking
    (reg base years e : Z) (ret inc : R) (age : Z) :
  1 <= years <= 5 -> 1 <= base ->
  (0 <= ret)%R -> (0 <= inc)%R -> reg <= e ->
  (script_crossover_age reg base years e ret inc = Some age
   <-> early_pension_start_age reg years <= age <= e
       /\ (exists ve : Z,
             assets_at (early_pension_df reg base years e ret inc) age
             = Some ve
             /\ ve <= fillna0
                        (assets_at
                           (regular_pension_df reg base years e ret inc)
                           age))
       /\ (forall a : Z, early_pension_start_age reg years <= a < age ->
             exists ve : Z,
               assets_at (early_pension_df reg base years e ret inc) a
               = Some ve
               /\ fillna0
                    (assets_at
                       (regular_pension_df reg base years e ret inc) a)
                  < ve))
  /\ (script_crossover_age reg base years e ret inc = Some age ->
      reg <= age).
Proof.
  intros Hy Hb Hr Hi Hre. split; [split|].
  - intros Hcross.
    destruct (crossover_first_overtaking reg base years e ret inc age
                Hy Hb Hr Hi Hre Hcross)
      as (Hage & (ve & vr & Hve & Hvr & Hle) & Hbefore).
    split; [unfold early_pension_start_age; lia|].
    split; [|exact Hbefore].
    exists ve. split; [exact Hve|]. rewrite Hvr. exact Hle.
  - intros (Hage & Hat & Hbefore).
    now apply crossover_from_first_overtaking.
  - intros Hcross.
    now destruct (crossover_first_overtaking reg base years e ret inc age
                    Hy Hb Hr Hi Hre Hcross) as [[Hreg _] _].
Qed.

Lemma reported_crossover_is_first_overtaking_witness :
  1 <= 5 <= 5 /\ 1 <= 1000000 /\ (0 <= 0)%R /\ 65 <= 80
  /\ script_crossover_age 65 1000000 5 80 0 0 = Some 76
  /\ 65 <= 76
  /\ (exists ve : Z,
        assets_at (early_pension_df 65 1000000 5 80 0 0) 76 = Some ve
        /\ ve <= fillna0
                   (assets_at (regular_pension_df 65 1000000 5 80 0 0) 76))
  /\ (forall a : Z, early_pension_start_age 65 5 <= a < 76 ->
        exists ve : Z,
          assets_at (early_pension_df 65 1000000 5 80 0 0) a = Some ve
          /\ fillna0 (assets_at (regular_pension_df 65 1000000 5 80 0 0) a)
             < ve).
Proof.
  split; [lia|]. split; [lia|]. split; [lra|]. split; [lia|].
  split; [exact flat_run_crossover|].
  destruct (reported_crossover_is_first_overtaking 65 1000000 5 80 0 0 76)
    as [Hiff Hreg]; [lia|lia|lra|lra|lia|].
  split; [exact (Hreg flat_run_crossover)|].
  destruct (proj1 Hiff flat_run_crossover) as (_ & Hat & Hbefore).
  split; [exact Hat|exact Hbefore].
Defined.

(** X13.  With no early year every row of the table is highlighted in
    red: the delta is 0 at every age, and the style function colours a
    delta of zero. *)
Theorem no_early_years_all_rows_red (reg base e : Z) (ret inc : R) :
  reg <= e ->
  exists merged : list merged_row,
    merged_df reg base 0 e ret inc = Some merged
    /\ merged <> []
    /\ forall row, In row merged ->
         highlight_crossover row = repeat "color: red"%string 4.
Proof.
  intros Hre. eexists. split; [apply merged_df_rows; lia|]. split.
  - rewrite early_start_without_early_years.
    rewrite PyFacts.range_cons by lia. discriminate.
  - intros row Hrow. apply in_map_iff in Hrow as [a [<- Ha]].
    rewrite early_start_without_early_years in Ha.
    apply PyFacts.in_range in Ha.
    rewrite frames_equal_without_early_years.
    unfold regular_pension_df. rewrite assets_at_simulated by lia.
    unfold highlight_crossover, with_delta.
    cbn [m_delta fillna0 cell_le0]. now rewrite Z.sub_diag.
Qed.

Lemma no_early_years_all_rows_red_witness :
  65 <= 80
  /\ exists merged : list merged_row,
       merged_df 65 1000000 0 80 0.05 0.034 = Some merged
       /\ merged <> []
       /\ forall row, In row merged ->
            highlight_crossover row = repeat "color: red"%string 4.
Proof.
  split; [lia|].
  apply (no_early_years_all_rows_red 65 1000000 80 0.05 0.034). lia.
Defined.

(** X14.  When the early start age is not negative, the test
    [if crossover_age:] takes the reporting branch exactly when the scan
    found an age: a found age lies above the early start age and is never
    the falsy 0. *)
Theorem found_crossover_is_announced
    (reg base years e : Z) (ret inc : R) :
  0 <= years <= reg -> reg <= e ->
  (crossover_announced (script_crossover_age reg base years e ret inc) = true
   <-> exists age : Z,
         script_crossover_age reg base years e ret inc = Some age)
  /\ (forall age : Z,
        script_crossover_age reg base years e ret inc = Some age ->
        early_pension_start_age reg years < age <= e).
Proof.
  intros Hy Hre.
  assert (forall age : Z,
            script_crossover_age reg base years e ret inc = Some age ->
            early_pension_start_age reg years < age <= e) as Hrange.
  { intros age Hc.
    apply (crossover_never_at_first_age reg base years e ret inc age);
      [lia|exact Hre|exact Hc]. }
  split; [|exact Hrange].
  destruct (script_crossover_age reg base years e ret inc) as [age|] eqn:Hc.
  - split; [intros _; now exists age|]. intros _.
    pose proof (Hrange age eq_refl) as Hage.
    unfold early_pension_start_age in Hage.
    cbn [crossover_announced]. destruct (Z.eqb_spec age 0); [lia|reflexivity].
  - split; [discriminate|]. intros [age Hage]. discriminate.
Qed.

Lemma found_crossover_is_announced_witness :
  0 <= 5 <= 65 /\ 65 <= 80
  /\ script_crossover_age 65 1000000 5 80 0 0 = Some 76
  /\ crossover_announced (script_crossover_age 65 1000000 5 80 0 0) = true
  /\ early_pension_start_age 65 5 < 76 <= 80.
Proof.
  split; [lia|]. split; [lia|].
  split; [exact flat_run_crossover|].
  destruct (found_crossover_is_announced 65 1000000 5 80 0 0)
    as [Hiff Hrange]; [lia|lia|].
  split.
  - apply Hiff. exists 76. exact flat_run_crossover.
  - exact (Hrange 76 flat_run_crossover).
Defined.

(** X15.  The amounts the detail text recomputes agree with the engine:
    twelve times the early monthly amount shown is the engine's yearly
    early pension at every selected age; the regular monthly amount is
    computed only from the regular start age on, and twelve times it is
    the engine's yearly regular pension, while in the other branch the
    engine's pension is 0; the displayed quarterly rate is the engine's,
    in percent. *)
Theorem detail_amounts_agree_with_engine
    (early_amt base_amt ret inc : R) (selected es reg : Z) :
  (current_early_monthly_pension_at_selected_age early_amt inc selected es
   * 12)%R
  = calculate_annual_pension_with_increase_rate early_amt es selected inc
  /\ match current_adjusted_monthly_pension_regular base_amt inc selected reg
     with
     | Some monthly =>
         reg <= selected
         /\ (monthly * 12)%R
            = calculate_annual_pension_with_increase_rate base_amt reg
                selected inc
     | None =>
         selected < reg
         /\ calculate_annual_pension_with_increase_rate base_amt reg
              selected inc = 0%R
     end
  /\ current_quarterly_return_rate_display ret
     = (quarterly_return_rate ret * 100)%R.
Proof.
  split; [|split; [|reflexivity]].
  - unfold current_early_monthly_pension_at_selected_age,
      calculate_annual_pension_with_increase_rate.
    destruct (Z.leb_spec es selected) as [Hle|Hgt];
      destruct (Z.ltb_spec selected es) as [Hlt|Hge]; try lia;
      cbv zeta; ring.
  - unfold current_adjusted_monthly_pension_regular,
      calculate_annual_pension_with_increase_rate.
    destruct (Z.ltb_spec selected reg) as [Hlt|Hge].
    + split; [exact Hlt|reflexivity].
    + split; [exact Hge|reflexivity].
Qed.

(** X16.  For every age the select box offers, the ages of the table, the
    row lookup finds a row: it is the row of that age, holding the early
    frame's value and the regular frame's value, or 0 below the regular
    start age. *)
Theorem selected_row_is_found
    (reg base years e : Z) (ret inc : R) (selected : Z) :
  0 <= years -> reg <= e ->
  early_pension_start_age reg years <= selected <= e ->
  exists (merged : list merged_row) (row : merged_row),
    merged_df reg base years e ret inc = Some merged
    /\ In selected (map m_age merged)
    /\ selected_data_row merged selected = Some row
    /\ m_age row = selected
    /\ m_early row
       = assets_at (early_pension_df reg base years e ret inc) selected
    /\ m_regular row
       = fillna0
           (assets_at (regular_pension_df reg base years e ret inc) selected)
    /\ (selected < reg -> m_regular row = 0)
    /\ (reg <= selected ->
        exists regular_assets : Z,
          assets_at (regular_pension_df reg base years e ret inc) selected
          = Some regular_assets
          /\ m_regular row = regular_assets).
Proof.
  intros Hy Hre Hsel. eexists. eexists.
  split; [now apply merged_df_rows|]. split.
  - rewrite map_map. unfold with_delta. cbn [m_age]. rewrite map_id.
    apply PyFacts.in_range. lia.
  - split; [now apply selected_row_found|].
    split; [reflexivity|]. split; [reflexivity|]. split; [reflexivity|].
    unfold with_delta. cbn [m_regular]. split.
    + intros Hlt. unfold regular_pension_df.
      now rewrite assets_at_not_simulated by lia.
    + intros Hge. unfold regular_pension_df.
      rewrite assets_at_simulated by lia. eexists. split; reflexivity.
Qed.

Lemma selected_row_is_found_witness :
  0 <= 5 /\ 65 <= 80 /\ early_pension_start_age 65 5 <= 63 <= 80
  /\ exists (merged : list merged_row) (row : merged_row),
       merged_df 65 1000000 5 80 0.05 0.034 = Some merged
       /\ selected_data_row merged 63 = Some row
       /\ m_age row = 63.
Proof.
  split; [lia|]. split; [lia|].
  split; [unfold early_pension_start_age; lia|].
  destruct (selected_row_is_found 65 1000000 5 80 0.05 0.034 63)
    as (merged & row & Hm & _ & Hrow & Hage & _);
    [lia|lia|unfold early_pension_start_age; lia|].
  exists merged, row. split; [exact Hm|]. split; assumption.
Defined.
